(** * IKF PhoneBook: raw-text contact parser and duplicate detector

  A shallow embedding of [server/services/contactParser.js] and
  [server/services/duplicateDetector.js], and the properties of the
  specification that concern them.

  Conventions of the embedding.
  - A JavaScript string is a [string]: a sequence of code units, here the
    code units U+0000..U+00FF (one [ascii] each).  [length] is the
    JavaScript [.length].
  - A JavaScript number that the code computes with fractions (similarity,
    score) is a binary64 [float]; array indices and lengths are [nat].
  - A property that may hold a string, [null] or be absent is a [value].
  - [await executeQuery(...)] is a call into the persistence collaborator:
    a computation over the state of the store that returns rows or throws. *)

From Stdlib Require Import String Ascii List Arith Lia Bool ZArith.
From Stdlib Require Import PrimFloat Uint63 DecimalString.
Import ListNotations.

Local Open Scope string_scope.
Local Open Scope list_scope.
Local Open Scope nat_scope.

(** Decimal literals such as [0.4] denote the nearest binary64 number, as
  they do in JavaScript. *)
Set Warnings "-inexact-float".

(** String concatenation, the [+] of JavaScript on two strings. *)
Infix "+++" := String.append (right associativity, at level 60).

(** ** JavaScript values and string primitives *)

Module Js.

(** What a text property of a contact object can hold. *)
Inductive value : Type :=
| undefined
| null
| str (s : string).

(** [!!v]: a string is truthy unless it is empty. *)
Definition truthy (v : value) : bool :=
  match v with
  | str EmptyString => false
  | str _ => true
  | _ => false
  end.

(** [!!s] for an expression that is known to be a string. *)
Definition nonempty (s : string) : bool :=
  match s with
  | EmptyString => false
  | String _ _ => true
  end.

(** [v || ''] *)
Definition or_empty (v : value) : string :=
  match v with
  | str s => s
  | _ => ""
  end.

(** [a === b] on two values. *)
Definition strict_eq (a b : value) : bool :=
  match a, b with
  | undefined, undefined => true
  | null, null => true
  | str s, str t => String.eqb s t
  | _, _ => false
  end.

(** What is thrown: [new Error(message)], or the error with which a
    promise rejects. *)
Inductive exn : Type :=
| Error (message : string).

Definition code (c : ascii) : nat := nat_of_ascii c.

Definition in_range (lo hi : nat) (c : ascii) : bool :=
  (lo <=? code c) && (code c <=? hi).

(** [\d], which is [[0-9]]. *)
Definition isDigit (c : ascii) : bool := in_range 48 57 c.

(** [\s], and what [trim] strips: TAB, LF, VT, FF, CR, SPACE and NBSP are
    the white space and line terminators below U+0100. *)
Definition isWhiteSpace (c : ascii) : bool :=
  in_range 9 13 c || (code c =? 32) || (code c =? 160).

Definition isUpper (c : ascii) : bool :=
  in_range 65 90 c || (in_range 192 222 c && negb (code c =? 215)).

Definition isLower (c : ascii) : bool :=
  in_range 97 122 c || (in_range 224 254 c && negb (code c =? 247)).

(** [[a-zA-Z]] *)
Definition isAsciiLetter (c : ascii) : bool :=
  in_range 65 90 c || in_range 97 122 c.

Definition lowerChar (c : ascii) : ascii :=
  if isUpper c then ascii_of_nat (code c + 32) else c.

(** Upper case of one code unit.  U+00B5, U+00DF and U+00FF, whose upper
    case lies outside U+0000..U+00FF, are left as they are; the parser only
    upper-cases the first letter of a relationship keyword. *)
Definition upperChar (c : ascii) : ascii :=
  if isLower c then ascii_of_nat (code c - 32) else c.

Fixpoint map (f : ascii -> ascii) (s : string) : string :=
  match s with
  | EmptyString => EmptyString
  | String c s' => String (f c) (map f s')
  end.

Definition toLowerCase (s : string) : string := map lowerChar s.
Definition toUpperCase (s : string) : string := map upperChar s.

(** [s.replace(/C/g, '')] for a character class [C]: keep the others. *)
Fixpoint remove_all (p : ascii -> bool) (s : string) : string :=
  match s with
  | EmptyString => EmptyString
  | String c s' => if p c then remove_all p s' else String c (remove_all p s')
  end.

Fixpoint trimStart (s : string) : string :=
  match s with
  | EmptyString => EmptyString
  | String c s' => if isWhiteSpace c then trimStart s' else s
  end.

Fixpoint trimEnd (s : string) : string :=
  match s with
  | EmptyString => EmptyString
  | String c s' =>
      match trimEnd s' with
      | EmptyString => if isWhiteSpace c then EmptyString else String c EmptyString
      | t => String c t
      end
  end.

Definition trim (s : string) : string := trimEnd (trimStart s).

(** [s.substring(n)] and [s.slice(n)] for [0 <= n]. *)
Fixpoint drop (n : nat) (s : string) : string :=
  match n, s with
  | O, _ => s
  | S n', String _ s' => drop n' s'
  | S _, EmptyString => EmptyString
  end.

(** [s.charAt(0)] *)
Definition charAt0 (s : string) : string :=
  match s with
  | EmptyString => EmptyString
  | String c _ => String c EmptyString
  end.

(** [s.startsWith(t)] *)
Definition startsWith (s t : string) : bool := String.prefix t s.

(** [s.includes(t)] *)
Fixpoint includes (s t : string) : bool :=
  String.prefix t s ||
  match s with
  | EmptyString => false
  | String _ s' => includes s' t
  end.

(** [s.replace(t, '')] for a string pattern [t]: the first occurrence of
    [t] is removed, and [s] is unchanged when there is none. *)
Fixpoint remove_first (t : string) (s : string) : string :=
  if String.prefix t s then drop (String.length t) s
  else match s with
       | EmptyString => EmptyString
       | String c s' => String c (remove_first t s')
       end.

(** [s.split(sep)] for a non-empty string separator.  [skip] counts the
    code units of a separator occurrence still to pass over, [cur] is the
    piece being read. *)
Fixpoint split_from (sep : string) (skip : nat) (cur : string) (s : string)
  : list string :=
  match s with
  | EmptyString => [cur]
  | String c s' =>
      match skip with
      | S n => split_from sep n cur s'
      | O =>
          if String.prefix sep s
          then cur :: split_from sep (String.length sep - 1) "" s'
          else split_from sep 0 (cur +++ String c "") s'
      end
  end.

Definition split (sep : string) (s : string) : list string :=
  split_from sep 0 "" s.

(** [s.split(/\s+/)]: [in_run] says that the previous code unit was white
    space, so that a run of white space separates once. *)
Fixpoint split_ws_from (in_run : bool) (cur : string) (s : string)
  : list string :=
  match s with
  | EmptyString => [cur]
  | String c s' =>
      if isWhiteSpace c
      then if in_run then split_ws_from true "" s'
           else cur :: split_ws_from true "" s'
      else split_ws_from false (cur +++ String c "") s'
  end.

Definition split_ws (s : string) : list string := split_ws_from false "" s.

(** [parts.join(sep)] *)
Fixpoint join (sep : string) (parts : list string) : string :=
  match parts with
  | [] => ""
  | [p] => p
  | p :: rest => p +++ sep +++ join sep rest
  end.

(** [parts[i]] on an array of strings: absent beyond the end. *)
Definition at_index (parts : list string) (i : nat) : value :=
  match nth_error parts i with
  | Some s => str s
  | None => undefined
  end.

(** [`${n}`] for a non-negative integer. *)
Definition number_to_string (n : nat) : string :=
  NilEmpty.string_of_uint (Nat.to_uint n).

(** The binary64 number of a length or a count. *)
Definition number (n : nat) : float :=
  PrimFloat.of_uint63 (Uint63.of_Z (Z.of_nat n)).

Definition nl : string := String (ascii_of_nat 10) "".
Definition tab : string := String (ascii_of_nat 9) "".

End Js.

(** ** The regular expressions the parser uses

  A backtracking matcher in the order of the ECMAScript semantics: a
  quantifier is greedy, an alternative is tried left to right, and a search
  reports the leftmost start at which the pattern matches. *)

Module Regex.

Inductive regex : Type :=
| Eps
| Lit (s : string)
| Chr (p : ascii -> bool)
| Rep (p : ascii -> bool) (lo : nat) (hi : option nat)
| Seq (r1 r2 : regex)
| Alt (r1 r2 : regex).

(** [(r)?] *)
Definition Opt (r : regex) : regex := Alt r Eps.

Definition more (hi : option nat) : bool :=
  match hi with
  | Some O => false
  | _ => true
  end.

(** [p{lo,hi}] at the head of [s], longest first; [k] continues with the
    rest of the input and may refuse, which makes the quantifier give one
    code unit back. *)
Fixpoint rep (p : ascii -> bool) (lo : nat) (hi : option nat) (s : string)
  (k : string -> option string) : option string :=
  let stop := if lo =? 0 then k s else None in
  match s with
  | String c s' =>
      if p c && more hi
      then match rep p (Nat.pred lo) (option_map Nat.pred hi) s' k with
           | Some rest => Some rest
           | None => stop
           end
      else stop
  | EmptyString => stop
  end.

Fixpoint exec (r : regex) (s : string) (k : string -> option string)
  : option string :=
  match r with
  | Eps => k s
  | Lit t => if String.prefix t s then k (Js.drop (String.length t) s) else None
  | Chr p =>
      match s with
      | String c s' => if p c then k s' else None
      | EmptyString => None
      end
  | Rep p lo hi => rep p lo hi s k
  | Seq r1 r2 => exec r1 s (fun s' => exec r2 s' k)
  | Alt r1 r2 =>
      match exec r1 s k with
      | Some rest => Some rest
      | None => exec r2 s k
      end
  end.

(** The text matched at the head of [s], if the pattern matches there. *)
Definition match_here (r : regex) (s : string) : option string :=
  match exec r s Some with
  | Some rest => Some (String.substring 0 (String.length s - String.length rest) s)
  | None => None
  end.

(** [s.match(/r/g)[0]] (and [s.match(/r/)[0]]): the leftmost match, [None]
    when [s.match] is [null]. *)
Fixpoint first_match (r : regex) (s : string) : option string :=
  match match_here r s with
  | Some m => Some m
  | None =>
      match s with
      | EmptyString => None
      | String _ s' => first_match r s'
      end
  end.

(** [/r/.test(s)] *)
Definition test (r : regex) (s : string) : bool :=
  match first_match r s with
  | Some _ => true
  | None => false
  end.

(** [/^r$/.test(s)] *)
Definition test_anchored (r : regex) (s : string) : bool :=
  match exec r s (fun rest => if Js.nonempty rest then None else Some rest) with
  | Some _ => true
  | None => false
  end.

Definition char_is (a : string) (c : ascii) : bool :=
  match a with
  | String x EmptyString => Ascii.eqb x c
  | _ => false
  end.

Definition one_of (chars : string) (c : ascii) : bool :=
  Js.includes chars (String c "").

End Regex.

(** ** server/services/contactParser.js *)

Module contactParser.
Import Js Regex.

(** A parsed contact: the object the strategies build.  A property that a
    strategy does not assign is [undefined]. *)
Record Contact : Type := mkContact {
  first_name : value;
  last_name : value;
  phone_number : value;
  email : value;
  relationship_type : value
}.

(** What [parseName] returns. *)
Record NameInfo : Type := mkNameInfo {
  name_first : string;
  name_last : string
}.

Definition notDigit (c : ascii) : bool := negb (isDigit c).

Definition formatPhoneNumber (phone : string) : value :=
  if negb (nonempty phone) then null
  else
    let cleaned := remove_all notDigit phone in
    if String.length cleaned =? 10 then str ("+1" +++ cleaned)
    else if (String.length cleaned =? 11) && startsWith cleaned "1"
    then str ("+" +++ cleaned)
    else if (String.length cleaned =? 12) && startsWith cleaned "91"
    then str ("+" +++ cleaned)
    else if 10 <=? String.length cleaned then str ("+" +++ cleaned)
    else str phone.

Definition seq (rs : list regex) : regex := fold_right Seq Eps rs.

(** [[^\s@]] *)
Definition notSpaceNorAt (c : ascii) : bool :=
  negb (isWhiteSpace c || char_is "@" c).

(** [/^[^\s@]+@[^\s@]+\.[^\s@]+$/], without its anchors. *)
Definition emailRegex : regex :=
  seq [Rep notSpaceNorAt 1 None; Lit "@"; Rep notSpaceNorAt 1 None; Lit ".";
       Rep notSpaceNorAt 1 None].

Definition validateEmail (email : string) : value :=
  if negb (nonempty email) then null
  else if test_anchored emailRegex email then str email else null.

Definition detectRelationshipType (text : string) : string :=
  if negb (nonempty text) then "Other"
  else
    let lowerText := toLowerCase text in
    if includes lowerText "client" || includes lowerText "customer" then "Client"
    else if includes lowerText "vendor" || includes lowerText "supplier" then "Vendor"
    else if includes lowerText "lead" || includes lowerText "prospect" then "Lead"
    else if includes lowerText "partner" || includes lowerText "associate" then "Partner"
    else "Other".

(** [split] never returns an empty array, so the last case covers three
    parts and more; the case of no part is not reached. *)
Definition parseName (nameText : string) : NameInfo :=
  if negb (nonempty nameText) then mkNameInfo "" ""
  else
    let name := trim nameText in
    let parts := split_ws name in
    match parts with
    | [] => mkNameInfo "" ""
    | [p0] => mkNameInfo p0 ""
    | [p0; p1] => mkNameInfo p0 p1
    | p0 :: rest => mkNameInfo p0 (join " " rest)
    end.

(** [if (parts[i]) contact.prop = f(parts[i])] on a fresh object. *)
Definition assign_if (parts : list string) (i : nat) (f : string -> value)
  : value :=
  match nth_error parts i with
  | Some part => if nonempty part then f part else undefined
  | None => undefined
  end.

(** The body that [parseCommaSeparated] and [parseTabSeparated] share once
    the line is split: name, phone, email, relationship type, in this
    order of parts. *)
Definition fromParts (parts : list string) : option Contact :=
  if List.length parts <? 2 then None
  else
    let nameInfo := parseName (nth 0 parts "") in
    Some {| first_name := str (name_first nameInfo);
            last_name := str (name_last nameInfo);
            phone_number := assign_if parts 1 formatPhoneNumber;
            email := assign_if parts 2 validateEmail;
            relationship_type :=
              assign_if parts 3 (fun part => str (detectRelationshipType part)) |}.

Definition parseCommaSeparated (line : string) : option Contact :=
  let parts := List.map trim (split "," line) in
  fromParts parts.

Definition parseTabSeparated (line : string) : option Contact :=
  let parts := List.map trim (split tab line) in
  fromParts parts.

(** [/[\d\-\(\)\s]/] *)
Definition phoneish : regex :=
  Chr (fun c => isDigit c || one_of "-()" c || isWhiteSpace c).

(** [/^(client|vendor|lead|partner|other)$/], without its anchors. *)
Definition keyword : regex :=
  Alt (Lit "client") (Alt (Lit "vendor") (Alt (Lit "lead")
    (Alt (Lit "partner") (Lit "other")))).

(** The variables of the loop of [parseSpaceSeparated]. *)
Record Tokens : Type := mkTokens {
  nameParts : list string;
  phoneNumber : value;
  tok_email : value;
  relationshipType : string
}.

Definition classify (t : Tokens) (part : string) : Tokens :=
  if negb (truthy (phoneNumber t)) && test phoneish part
  then mkTokens (nameParts t) (formatPhoneNumber part) (tok_email t)
         (relationshipType t)
  else if negb (truthy (tok_email t)) && includes part "@"
  then mkTokens (nameParts t) (phoneNumber t) (validateEmail part)
         (relationshipType t)
  else if test_anchored keyword (toLowerCase part)
  then mkTokens (nameParts t) (phoneNumber t) (tok_email t)
         (toUpperCase (charAt0 part) +++ toLowerCase (drop 1 part))
  else mkTokens (nameParts t ++ [part]) (phoneNumber t) (tok_email t)
         (relationshipType t).

Definition parseSpaceSeparated (line : string) : option Contact :=
  let parts := split_ws line in
  if List.length parts <? 3 then None
  else
    let t := fold_left classify parts (mkTokens [] null null "Other") in
    if (List.length (nameParts t) =? 0) || negb (truthy (phoneNumber t))
    then None
    else
      let nameInfo := parseName (join " " (nameParts t)) in
      Some {| first_name := str (name_first nameInfo);
              last_name := str (name_last nameInfo);
              phone_number := phoneNumber t;
              email := tok_email t;
              relationship_type := str (relationshipType t) |}.

(** [[-.\s]] *)
Definition separator (c : ascii) : bool := one_of "-." c || isWhiteSpace c.

Definition optional (p : ascii -> bool) : regex := Rep p 0 (Some 1).
Definition exactly (n : nat) (p : ascii -> bool) : regex := Rep p n (Some n).

(** [/(\+?\d{1,3}[-.\s]?)?\(?([0-9]{3})\)?[-.\s]?([0-9]{3})[-.\s]?([0-9]{4})/g]
    and
    [/(\+?\d{1,3}[-.\s]?)?([0-9]{3})[-.\s]?([0-9]{3})[-.\s]?([0-9]{4})/g] *)
Definition countryCode : regex :=
  Opt (seq [optional (char_is "+"); Rep isDigit 1 (Some 3); optional separator]).

Definition phonePatterns : list regex :=
  [ seq [countryCode; optional (char_is "("); exactly 3 isDigit;
         optional (char_is ")"); optional separator; exactly 3 isDigit;
         optional separator; exactly 4 isDigit];
    seq [countryCode; exactly 3 isDigit; optional separator;
         exactly 3 isDigit; optional separator; exactly 4 isDigit] ].

(** [/[a-zA-Z0-9._%+-]+@[a-zA-Z0-9.-]+\.[a-zA-Z]{2,}/g] *)
Definition emailPattern : regex :=
  seq [Rep (fun c => isAsciiLetter c || isDigit c || one_of "._%+-" c) 1 None;
       Lit "@";
       Rep (fun c => isAsciiLetter c || isDigit c || one_of ".-" c) 1 None;
       Lit ".";
       Rep isAsciiLetter 2 None].

(** The loop over [phonePatterns]: the first pattern that matches gives
    the phone number, and the loop stops there. *)
Fixpoint extractPhone (patterns : list regex) (line : string) : value :=
  match patterns with
  | [] => null
  | pattern :: others =>
      match first_match pattern line with
      | Some match0 => formatPhoneNumber match0
      | None => extractPhone others line
      end
  end.

Definition parseByPattern (line : string) : option Contact :=
  let phoneNumber := extractPhone phonePatterns line in
  let email :=
    match first_match emailPattern line with
    | Some match0 => validateEmail match0
    | None => null
    end in
  let nameText := line in
  let nameText :=
    if truthy phoneNumber
    then trim (remove_first (or_empty phoneNumber) nameText) else nameText in
  let nameText :=
    if truthy email
    then trim (remove_first (or_empty email) nameText) else nameText in
  let nameText := trim (remove_all (one_of ",;") nameText) in
  if negb (nonempty nameText) || negb (truthy phoneNumber) then None
  else
    let nameInfo := parseName nameText in
    Some {| first_name := str (name_first nameInfo);
            last_name := str (name_last nameInfo);
            phone_number := phoneNumber;
            email := email;
            relationship_type := str "Other" |}.

Definition parseContactLine (line : string) : option Contact :=
  match parseCommaSeparated line with
  | Some commaSeparated => Some commaSeparated
  | None =>
      match parseTabSeparated line with
      | Some tabSeparated => Some tabSeparated
      | None =>
          match parseSpaceSeparated line with
          | Some spaceSeparated => Some spaceSeparated
          | None =>
              match parseByPattern line with
              | Some patternParsed => Some patternParsed
              | None => None
              end
          end
      end
  end.

(** [contact.phone_number.length], read once the property is known to be
    a non-empty string. *)
Definition length_of (v : value) : nat := String.length (or_empty v).

Definition validateParsedContact (contact : Contact) : bool :=
  if negb (truthy (first_name contact)) || negb (truthy (phone_number contact))
  then false
  else if length_of (phone_number contact) <? 10 then false
  else if truthy (email contact) && negb (includes (or_empty (email contact)) "@")
  then false
  else true.

Definition parseAlternativeFormats (line : string) : option Contact :=
  let dashSeparated := List.map trim (split " - " line) in
  if 2 <=? List.length dashSeparated then
    let nameInfo := parseName (nth 0 dashSeparated "") in
    Some {| first_name := str (name_first nameInfo);
            last_name := str (name_last nameInfo);
            phone_number := assign_if dashSeparated 1 formatPhoneNumber;
            email := assign_if dashSeparated 2 validateEmail;
            relationship_type := undefined |}
  else None.

(** [rawData.split('\n').filter(line => line.trim())] *)
Definition nonBlankLines (rawData : string) : list string :=
  filter (fun line => nonempty (trim line)) (split nl rawData).

(** The two batch loops run their body in [try { ... } catch (error)
    { console.error(...) }].  The strategies themselves cannot throw on a
    string; to say what the [catch] does, the loops are written for any
    line parser, one that may throw included, and then taken at
    [parseContactLine]. *)
Section Batch.

(** The call [parseContactLine(line)]: it returns or it throws. *)
Variable parseLine : string -> exn + option Contact.

(** One turn of the loop of [parseRawContactData]. *)
Definition parseStep (contacts : list Contact) (line_i : string)
  : list Contact :=
  let line := trim line_i in
  if negb (nonempty line) then contacts
  else
    match parseLine line with
    | inr (Some contact) =>
        if truthy (first_name contact) && truthy (phone_number contact)
        then contacts ++ [contact] else contacts
    | inr None => contacts
    | inl error => contacts
    end.

Definition parseRawContactDataWith (rawData : string) : list Contact :=
  let lines := nonBlankLines rawData in
  fold_left parseStep lines [].

(** One turn of the loop of [parseRawContactDataEnhanced]. *)
Definition parseStepEnhanced (contacts : list Contact) (line_i : string)
  : list Contact :=
  let line := trim line_i in
  if negb (nonempty line) then contacts
  else
    match parseLine line with
    | inr parsed =>
        let contact :=
          match parsed with
          | Some contact => Some contact
          | None => parseAlternativeFormats line
          end in
        match contact with
        | Some contact =>
            if validateParsedContact contact then contacts ++ [contact]
            else contacts
        | None => contacts
        end
    | inl error => contacts
    end.

Definition parseRawContactDataEnhancedWith (rawData : string)
  : list Contact :=
  let lines := nonBlankLines rawData in
  fold_left parseStepEnhanced lines [].

End Batch.

Definition parseRawContactData (rawData : string) : list Contact :=
  parseRawContactDataWith (fun line => inr (parseContactLine line)) rawData.

Definition parseRawContactDataEnhanced (rawData : string) : list Contact :=
  parseRawContactDataEnhancedWith (fun line => inr (parseContactLine line))
    rawData.

End contactParser.

(** ** server/services/duplicateDetector.js *)

Module duplicateDetector.
Import Js.

(** *** Similarity of strings *)

(** [Math.min(a, b, c)] *)
Definition min3 (a b c : nat) : nat := Nat.min a (Nat.min b c).

(** The inner loop over [j]: the cells [matrix[i][1..]] of one row.
    [diag] is [matrix[i-1][j-1]], [left] is [matrix[i][j-1]] and [above]
    holds [matrix[i-1][j..]]; [c2] is [s2.charAt(i-1)]. *)
Fixpoint fillRow (c2 : ascii) (s1 : string) (diag left : nat)
  (above : list nat) : list nat :=
  match s1, above with
  | String c1 s1', up :: above' =>
      let cell :=
        if Ascii.eqb c2 c1 then diag
        else min3 (diag + 1) (left + 1) (up + 1) in
      cell :: fillRow c2 s1' up cell above'
  | _, _ => []
  end.

(** The outer loop over [i], from row [i] on; [prev] is [matrix[i-1]]. *)
Fixpoint fillRows (s2 s1 : string) (i : nat) (prev : list nat)
  : list (list nat) :=
  match s2 with
  | EmptyString => []
  | String c2 s2' =>
      let row := i :: fillRow c2 s1 (hd 0 prev) i (tl prev) in
      row :: fillRows s2' s1 (S i) row
  end.

(** [matrix]: row [0] is [0, 1, ..., s1.length] and row [i] starts with
    [i]. *)
Definition levenshteinMatrix (s1 s2 : string) : list (list nat) :=
  let row0 := List.seq 0 (S (String.length s1)) in
  row0 :: fillRows s2 s1 1 row0.

Definition calculateSimilarity (str1 str2 : value) : float :=
  if negb (truthy str1) || negb (truthy str2) then 0%float
  else
    let s1 := trim (toLowerCase (or_empty str1)) in
    let s2 := trim (toLowerCase (or_empty str2)) in
    if String.eqb s1 s2 then 1%float
    else
      let matrix := levenshteinMatrix s1 s2 in
      let distance :=
        nth (String.length s1) (nth (String.length s2) matrix []) 0 in
      let maxLength := Nat.max (String.length s1) (String.length s2) in
      (1 - number distance / number maxLength)%float.

Definition notDigit (c : ascii) : bool := negb (isDigit c).

Definition normalizePhoneNumber (phone : value) : string :=
  if negb (truthy phone) then ""
  else
    let cleaned := remove_all notDigit (or_empty phone) in
    if (String.length cleaned =? 11) && startsWith cleaned "1"
    then drop 1 cleaned
    else cleaned.

Definition arePhoneNumbersSimilar (phone1 phone2 : value) : bool :=
  if negb (truthy phone1) || negb (truthy phone2) then false
  else
    let normalized1 := normalizePhoneNumber phone1 in
    let normalized2 := normalizePhoneNumber phone2 in
    if String.eqb normalized1 normalized2 then true
    else if includes normalized1 normalized2 || includes normalized2 normalized1
    then true
    else (0.8 <? calculateSimilarity (str normalized1) (str normalized2))%float.

Definition areNamesSimilar (name1 name2 : value) : bool :=
  if negb (truthy name1) || negb (truthy name2) then false
  else
    let similarity := calculateSimilarity name1 name2 in
    (0.7 <? similarity)%float.

Definition areEmailsSimilar (email1 email2 : value) : bool :=
  if negb (truthy email1) || negb (truthy email2) then false
  else
    let e1 := or_empty email1 in
    let e2 := or_empty email2 in
    if String.eqb (toLowerCase e1) (toLowerCase e2) then true
    else
      let domain1 := at_index (split "@" e1) 1 in
      let domain2 := at_index (split "@" e2) 1 in
      if truthy domain1 && truthy domain2 && strict_eq domain1 domain2
      then
        let username1 := at_index (split "@" e1) 0 in
        let username2 := at_index (split "@" e2) 0 in
        (0.8 <? calculateSimilarity username1 username2)%float
      else false.

(** *** Stored contacts and the persistence collaborator *)

(** A row of the table [contacts]. *)
Record Row : Type := mkRow {
  id : nat;
  first_name : value;
  last_name : value;
  phone_number : value;
  email : value;
  relationship_type : value;
  data_owner : value;
  source : value;
  status : value;
  notes : value;
  created_by : option nat;
  created_at : value;
  updated_at : value
}.

(** A positional parameter of a query. *)
Inductive param : Type :=
| text (v : value)
| int (n : nat).

(** What [executeQuery] resolves to. *)
Record QueryResult : Type := mkQueryResult { rows : list Row }.

Record DuplicateMatch : Type := mkDuplicateMatch {
  existingContact : Row;
  similarityScore : float;
  matchReasons : list string;
  isExactMatch : bool
}.

Record DuplicateResult : Type := mkDuplicateResult {
  hasDuplicates : bool;
  duplicates : list DuplicateMatch;
  totalDuplicates : nat
}.

Record MergeResult : Type := mkMergeResult {
  success : bool;
  mergedContact : Row;
  deletedCount : nat
}.

(** [`${first || ''} ${last || ''}`.trim()] *)
Definition fullNameOf (first last : value) : string :=
  trim (or_empty first +++ " " +++ or_empty last).

(** *** The query of [detectDuplicates] *)

(** The variables with which the query is put together. *)
Record Builder : Type := mkBuilder {
  query : string;
  params : list param;
  paramCount : nat;
  conditions : list string
}.

Definition dollar (n : nat) : string := "$" +++ number_to_string n.

Definition selectCandidates : string :=
  nl +++ "      SELECT id, first_name, last_name, phone_number, email, "
  +++ nl +++ "             relationship_type, data_owner, source, created_at"
  +++ nl +++ "      FROM contacts"
  +++ nl +++ "      WHERE 1=1"
  +++ nl +++ "    ".

(** [if (excludeId)]: a number is truthy unless it is [0]. *)
Definition addExclusion (excludeId : option nat) (b : Builder) : Builder :=
  match excludeId with
  | Some (S n) =>
      mkBuilder (query b +++ " AND id != " +++ dollar (paramCount b))
        (params b ++ [int (S n)]) (paramCount b + 1) (conditions b)
  | _ => b
  end.

Definition addPhone (contact : contactParser.Contact) (b : Builder) : Builder :=
  let phone_number := contactParser.phone_number contact in
  if truthy phone_number then
    let normalizedPhone := normalizePhoneNumber phone_number in
    mkBuilder (query b)
      (params b ++
         [text phone_number;
          text (str ("%" +++ normalizedPhone +++ "%"));
          text (str ("%" +++ remove_all notDigit (or_empty phone_number) +++ "%"))])
      (paramCount b + 3)
      (conditions b ++
         ["(" +++ nl
          +++ "        phone_number = " +++ dollar (paramCount b) +++ " OR " +++ nl
          +++ "        phone_number LIKE " +++ dollar (paramCount b + 1) +++ " OR" +++ nl
          +++ "        phone_number LIKE " +++ dollar (paramCount b + 2) +++ nl
          +++ "      )"])
  else b.

Definition addEmail (contact : contactParser.Contact) (b : Builder) : Builder :=
  let email := contactParser.email contact in
  if truthy email then
    mkBuilder (query b) (params b ++ [text email]) (paramCount b + 1)
      (conditions b ++ ["email = " +++ dollar (paramCount b)])
  else b.

Definition addName (contact : contactParser.Contact) (b : Builder) : Builder :=
  let first_name := contactParser.first_name contact in
  let last_name := contactParser.last_name contact in
  if truthy first_name || truthy last_name then
    let fullName := fullNameOf first_name last_name in
    if nonempty fullName then
      mkBuilder (query b)
        (params b ++
           [text (str (or_empty first_name)); text (str (or_empty last_name));
            text (str fullName)])
        (paramCount b + 3)
        (conditions b ++
           ["(" +++ nl
            +++ "          LOWER(first_name) = LOWER("
            +++ dollar (paramCount b) +++ ") OR" +++ nl
            +++ "          LOWER(last_name) = LOWER("
            +++ dollar (paramCount b + 1) +++ ") OR" +++ nl
            +++ "          LOWER(CONCAT(first_name, ' ', last_name)) = LOWER("
            +++ dollar (paramCount b + 2) +++ ")" +++ nl
            +++ "        )"])
    else b
  else b.

Definition addConditions (b : Builder) : Builder :=
  if 0 <? List.length (conditions b)
  then mkBuilder (query b +++ " AND (" +++ join " OR " (conditions b) +++ ")")
         (params b) (paramCount b) (conditions b)
  else b.

Definition addOrder (b : Builder) : Builder :=
  mkBuilder (query b +++ " ORDER BY created_at DESC") (params b) (paramCount b)
    (conditions b).

Definition candidateQuery (contact : contactParser.Contact)
  (excludeId : option nat) : Builder :=
  addOrder (addConditions (addName contact (addEmail contact
    (addPhone contact (addExclusion excludeId
      (mkBuilder selectCandidates [] 1 [])))))).

(** *** Scoring *)

(** The body of the loop over [result.rows], up to the test of the score:
    the score and the reasons of one existing contact. *)
Definition scoreOf (contact : contactParser.Contact) (existingContact : Row)
  : float * list string :=
  let similarityScore := 0%float in
  let matchReasons := @nil string in
  let '(similarityScore, matchReasons) :=
    if truthy (contactParser.phone_number contact)
       && truthy (phone_number existingContact)
    then
      if arePhoneNumbersSimilar (contactParser.phone_number contact)
           (phone_number existingContact)
      then ((similarityScore + 0.4)%float, matchReasons ++ ["Phone number match"])
      else (similarityScore, matchReasons)
    else (similarityScore, matchReasons) in
  let '(similarityScore, matchReasons) :=
    if truthy (contactParser.email contact) && truthy (email existingContact)
    then
      if areEmailsSimilar (contactParser.email contact) (email existingContact)
      then ((similarityScore + 0.4)%float, matchReasons ++ ["Email match"])
      else (similarityScore, matchReasons)
    else (similarityScore, matchReasons) in
  let existingFullName :=
    fullNameOf (first_name existingContact) (last_name existingContact) in
  let newFullName :=
    fullNameOf (contactParser.first_name contact)
      (contactParser.last_name contact) in
  if nonempty existingFullName && nonempty newFullName
  then
    if areNamesSimilar (str existingFullName) (str newFullName)
    then ((similarityScore + 0.3)%float, matchReasons ++ ["Name similarity"])
    else (similarityScore, matchReasons)
  else (similarityScore, matchReasons).

(** The object that the loop pushes for an existing contact. *)
Definition matchOf (contact : contactParser.Contact) (existingContact : Row)
  : DuplicateMatch :=
  {| existingContact := existingContact;
     similarityScore := fst (scoreOf contact existingContact);
     matchReasons := snd (scoreOf contact existingContact);
     isExactMatch := (0.8 <=? fst (scoreOf contact existingContact))%float |}.

(** One turn of the loop: [duplicates.push(...)] when the score is high
    enough. *)
Definition consider (contact : contactParser.Contact)
  (duplicates : list DuplicateMatch) (existingContact : Row)
  : list DuplicateMatch :=
  let '(similarityScore, matchReasons) := scoreOf contact existingContact in
  if (0.4 <=? similarityScore)%float
  then duplicates ++
         [ {| existingContact := existingContact;
              similarityScore := similarityScore;
              matchReasons := matchReasons;
              isExactMatch := (0.8 <=? similarityScore)%float |} ]
  else duplicates.

(** [duplicates.sort((a, b) => b.similarityScore - a.similarityScore)].
    The sort of an array is stable: an element moves in front of another
    only when the comparison asks for it, that is when its score is
    strictly higher. *)
Fixpoint insertByScore (x : DuplicateMatch) (sorted : list DuplicateMatch)
  : list DuplicateMatch :=
  match sorted with
  | [] => [x]
  | y :: rest =>
      if (0 <? similarityScore x - similarityScore y)%float
      then x :: y :: rest
      else y :: insertByScore x rest
  end.

Definition sortByScore (duplicates : list DuplicateMatch)
  : list DuplicateMatch :=
  fold_left (fun sorted x => insertByScore x sorted) duplicates [].

(** *** Merging *)

Definition fillIfMissing (merged duplicate : value) : value :=
  if negb (truthy merged) && truthy duplicate then duplicate else merged.

Definition mergeNotes (merged : value) (duplicate : Row) : value :=
  if truthy (notes duplicate) then
    if truthy merged
    then str (or_empty merged +++ nl +++ nl +++ "Merged from contact ID "
              +++ number_to_string (id duplicate) +++ ": "
              +++ or_empty (notes duplicate))
    else str ("Merged from contact ID " +++ number_to_string (id duplicate)
              +++ ": " +++ or_empty (notes duplicate))
  else merged.

(** One turn of the loop over [duplicatesResult.rows].  Each assignment
    reads and writes one property of [mergedContact], so the turn is
    written as the object after all of them. *)
Definition mergeOne (mergedContact duplicate : Row) : Row :=
  {| id := id mergedContact;
     first_name := fillIfMissing (first_name mergedContact) (first_name duplicate);
     last_name := fillIfMissing (last_name mergedContact) (last_name duplicate);
     phone_number :=
       fillIfMissing (phone_number mergedContact) (phone_number duplicate);
     email := fillIfMissing (email mergedContact) (email duplicate);
     relationship_type :=
       fillIfMissing (relationship_type mergedContact)
         (relationship_type duplicate);
     data_owner := fillIfMissing (data_owner mergedContact) (data_owner duplicate);
     source := source mergedContact;
     status := status mergedContact;
     notes := mergeNotes (notes mergedContact) duplicate;
     created_by := created_by mergedContact;
     created_at := created_at mergedContact;
     updated_at := updated_at mergedContact |}.

Definition selectPrimary : string := "SELECT * FROM contacts WHERE id = $1".

(** [duplicateContactIds.join(',')] *)
Definition joinIds (duplicateContactIds : list nat) : string :=
  join "," (List.map number_to_string duplicateContactIds).

Definition selectDuplicates (duplicateIds : string) : string :=
  "SELECT * FROM contacts WHERE id IN (" +++ duplicateIds +++ ")".

Definition updatePrimary : string :=
  "UPDATE contacts SET " +++ nl
  +++ "        first_name = $1, last_name = $2, phone_number = $3, email = $4," +++ nl
  +++ "        relationship_type = $5, data_owner = $6, notes = $7, "
  +++ "updated_at = CURRENT_TIMESTAMP" +++ nl
  +++ "      WHERE id = $8".

Definition deleteDuplicates (duplicateIds : string) : string :=
  "DELETE FROM contacts WHERE id IN (" +++ duplicateIds +++ ")".

Definition updateParams (mergedContact : Row) (primaryContactId : nat)
  : list param :=
  [text (first_name mergedContact); text (last_name mergedContact);
   text (phone_number mergedContact); text (email mergedContact);
   text (relationship_type mergedContact); text (data_owner mergedContact);
   text (notes mergedContact); int primaryContactId].

(** *** The operations that call the collaborator *)

Section Persistence.

(** The state of the store, of which the code knows nothing. *)
Variable DB : Type.

(** A computation that may call the collaborator: from a state of the
    store it throws or returns, and leaves a state. *)
Definition M (A : Type) : Type := DB -> (exn + A) * DB.

(** [await executeQuery(query, params)] *)
Variable executeQuery : string -> list param -> M QueryResult.

Definition ret {A : Type} (a : A) : M A := fun db => (inr a, db).

Definition throw {A : Type} (e : exn) : M A := fun db => (inl e, db).

Definition bind {A B : Type} (m : M A) (k : A -> M B) : M B :=
  fun db =>
    match m db with
    | (inr a, db') => k a db'
    | (inl e, db') => (inl e, db')
    end.

(** [try { m } catch (error) { handler(error) }] *)
Definition try_catch {A : Type} (m : M A) (handler : exn -> M A) : M A :=
  fun db =>
    match m db with
    | (inr a, db') => (inr a, db')
    | (inl e, db') => handler e db'
    end.

Notation "x <- m ;; k" := (bind m (fun x => k))
  (at level 61, m at next level, right associativity).

(** [duplicates] is declared before the [try] and returned after it: the
    [catch] branch logs the error and what has been pushed so far is
    returned.  An error can only come from [executeQuery], before the
    first [push]. *)
Definition detectDuplicates (contact : contactParser.Contact)
  (excludeId : option nat) : M DuplicateResult :=
  duplicates <-
    try_catch
      (let b := candidateQuery contact excludeId in
       result <- executeQuery (query b) (params b) ;;
       let duplicates := fold_left (consider contact) (rows result) [] in
       ret (sortByScore duplicates))
      (fun error => ret []) ;;
  ret {| hasDuplicates := 0 <? List.length duplicates;
         duplicates := duplicates;
         totalDuplicates := List.length duplicates |}.

Definition mergeContacts (primaryContactId : nat)
  (duplicateContactIds : list nat) : M MergeResult :=
  try_catch
    (primaryResult <- executeQuery selectPrimary [int primaryContactId] ;;
     match rows primaryResult with
     | [] => throw (Error "Primary contact not found")
     | primaryContact :: _ =>
         let duplicateIds := joinIds duplicateContactIds in
         duplicatesResult <- executeQuery (selectDuplicates duplicateIds) [] ;;
         let mergedContact :=
           fold_left mergeOne (rows duplicatesResult) primaryContact in
         _ <- executeQuery updatePrimary
                (updateParams mergedContact primaryContactId) ;;
         _ <- executeQuery (deleteDuplicates duplicateIds) [] ;;
         ret {| success := true;
                mergedContact := mergedContact;
                deletedCount := List.length duplicateContactIds |}
     end)
    (fun error => throw error).

End Persistence.

Arguments ret {DB A} a.
Arguments throw {DB A} e.

End duplicateDetector.

(** ** The specification's own words, and stores to run the code against *)

Module Spec.
Import Js.

(** "Try strategies in this exact order, returning the first non-null
    result." *)
Fixpoint first_success {A B : Type} (strategies : list (A -> option B))
  (line : A) : option B :=
  match strategies with
  | [] => None
  | strategy :: others =>
      match strategy line with
      | Some result => Some result
      | None => first_success others line
      end
  end.

Definition b2f (b : bool) (weight : float) : float :=
  if b then weight else 0%float.

(** "+0.4 if arePhoneNumbersSimilar, +0.4 if areEmailsSimilar, +0.3 if
    areNamesSimilar." *)
Definition weightedScore (phone email name : bool) : float :=
  (b2f phone 0.4 + b2f email 0.4 + b2f name 0.3)%float.

(** The same sum counted exactly, in tenths. *)
Definition tenths (phone email name : bool) : nat :=
  (if phone then 4 else 0) + (if email then 4 else 0) + (if name then 3 else 0).

(** "The primary's value is kept if non-empty; otherwise the first
    non-empty value found among the duplicates fills it." *)
Definition firstNonEmpty (primary : value) (duplicates : list value) : value :=
  if truthy primary then primary
  else match find truthy duplicates with
       | Some v => v
       | None => primary
       end.

(** The rows of [found] in the order in which their ids were given. *)
Definition inGivenOrder (ids : list nat) (found : list duplicateDetector.Row)
  : list duplicateDetector.Row :=
  flat_map (fun i => filter (fun r => duplicateDetector.id r =? i) found) ids.

Fixpoint containsDigit (s : string) : bool :=
  match s with
  | EmptyString => false
  | String c s' => isDigit c || containsDigit s'
  end.

(** "Normalizes (digits only) to at least 10 digits." *)
Definition tenDigits (phone : value) : bool :=
  10 <=? String.length (remove_all contactParser.notDigit (or_empty phone)).

(** What the batch keeps of one trimmed line: the contact, when the line
    parser returns one with a non-empty first name and a non-empty phone
    number; nothing when it returns [null], and nothing when it throws. *)
Definition keptOfWith (parseLine : string -> exn + option contactParser.Contact)
  (line : string) : list contactParser.Contact :=
  match parseLine line with
  | inr (Some contact) =>
      if truthy (contactParser.first_name contact)
         && truthy (contactParser.phone_number contact)
      then [contact] else []
  | inr None => []
  | inl _ => []
  end.

Definition keptOf (line : string) : list contactParser.Contact :=
  keptOfWith (fun line => inr (contactParser.parseContactLine line)) line.

End Spec.

Module Stores.
Import Js duplicateDetector.

(** A store that is out of order: every query is rejected. *)
Definition failing : string -> list param -> M unit QueryResult :=
  fun _ _ db => (inl (Error "SQLITE_BUSY: database is locked"), db).

(** A store held in memory: the table is the list of its rows, and a
    selection returns the rows it keeps in the order of the table, as a
    scan by rowid does. *)
Definition Table : Type := list Row.

Definition inList (q opening : string) (r : Row) : bool :=
  let inside := nth 0 (split ")" (drop (String.length opening) q)) "" in
  existsb (String.eqb (number_to_string (id r))) (split "," inside).

Definition valueOf (p : option param) : value :=
  match p with
  | Some (text v) => v
  | _ => null
  end.

Definition applyUpdate (ps : list param) (r : Row) : Row :=
  match nth_error ps 7 with
  | Some (int i) =>
      if id r =? i then
        {| id := id r;
           first_name := valueOf (nth_error ps 0);
           last_name := valueOf (nth_error ps 1);
           phone_number := valueOf (nth_error ps 2);
           email := valueOf (nth_error ps 3);
           relationship_type := valueOf (nth_error ps 4);
           data_owner := valueOf (nth_error ps 5);
           source := source r;
           status := status r;
           notes := valueOf (nth_error ps 6);
           created_by := created_by r;
           created_at := created_at r;
           updated_at := str "CURRENT_TIMESTAMP" |}
      else r
  | _ => r
  end.

Definition selectIn : string := "SELECT * FROM contacts WHERE id IN (".
Definition deleteIn : string := "DELETE FROM contacts WHERE id IN (".

(** It answers the four queries of [mergeContacts]; any other query, that
    is the one of [detectDuplicates], is answered with the whole table. *)
Definition inMemory : string -> list param -> M Table QueryResult :=
  fun q ps table =>
    if String.eqb q selectPrimary then
      match ps with
      | [int i] => (inr (mkQueryResult (filter (fun r => id r =? i) table)), table)
      | _ => (inl (Error "SQLITE_RANGE: bind or column index out of range"), table)
      end
    else if String.prefix selectIn q then
      (inr (mkQueryResult (filter (inList q selectIn) table)), table)
    else if String.eqb q updatePrimary then
      (inr (mkQueryResult []), List.map (applyUpdate ps) table)
    else if String.prefix deleteIn q then
      (inr (mkQueryResult []), filter (fun r => negb (inList q deleteIn r)) table)
    else (inr (mkQueryResult table), table).

Definition stored (i : nat) (first last phone mail : value) : Row :=
  {| id := i; first_name := first; last_name := last; phone_number := phone;
     email := mail; relationship_type := str "Other"; data_owner := null;
     source := str "Raw Data"; status := str "Active"; notes := null;
     created_by := None; created_at := str "2024-01-01 00:00:00";
     updated_at := str "2024-01-01 00:00:00" |}.

Definition ann : Row :=
  stored 1 (str "Ann") (str "Lee") (str "+11234567890") null.

Definition annie : Row :=
  stored 2 (str "Ann") null (str "123-456-7890") (str "second@example.com").

Definition bob : Row :=
  stored 3 (str "Bob") (str "Ray") (str "+15550001111")
    (str "third@example.com").

Definition book : Table := [ann; annie; bob].

(** [ann] once [annie] and [bob] are merged into her, and the table after
    the update and after the deletion. *)
Definition annMerged : Row :=
  stored 1 (str "Ann") (str "Lee") (str "+11234567890")
    (str "second@example.com").

Definition afterUpdate : Table :=
  [applyUpdate (updateParams annMerged 1) annMerged; annie; bob].

Definition afterMerge : Table :=
  [applyUpdate (updateParams annMerged 1) annMerged].

Definition candidate : contactParser.Contact :=
  contactParser.mkContact (str "Ann") (str "Lee") (str "(123) 456-7890")
    (str "second@example.com") (str "Client").

End Stores.

(** ** Lines and texts on which the parser is run *)

Module Lines.
Import Js contactParser.

Definition johnDoe : string :=
  "John Doe, +1-123-456-7890, john@example.com, Client".

Definition threeAndOne : string :=
  johnDoe +++ nl +++ "Jane Smith 987-654-3210" +++ nl
  +++ "no contact here" +++ nl +++ "Ravi Kumar" +++ tab +++ "+91 98765 43210".

Definition shortPhone : Contact :=
  {| first_name := str "John"; last_name := str "";
     phone_number := str "123-456-78"; email := undefined;
     relationship_type := undefined |}.

Definition johnDashes : string := "John 123-456-7890".

End Lines.

From Stdlib Require Import Sorted.

(** ** Predicates in which further properties are stated *)

Module Props.
Import Js.

(** Every code unit of the string is of the class. *)
Fixpoint allChars (p : ascii -> bool) (s : string) : bool :=
  match s with
  | EmptyString => true
  | String c s' => p c && allChars p s'
  end.

(** How many times the code unit occurs in the string. *)
Fixpoint occurrences (c : ascii) (s : string) : nat :=
  match s with
  | EmptyString => 0
  | String d s' => (if Ascii.eqb c d then 1 else 0) + occurrences c s'
  end.

(** The string has no white space. *)
Definition noSpace (s : string) : bool :=
  allChars (fun c => negb (isWhiteSpace c)) s.

(** The relationship types that the table of contacts admits. *)
Definition relationshipTypes : list string :=
  ["Client"; "Vendor"; "Lead"; "Partner"; "Other"].

(** The property is absent or holds one of the relationship types. *)
Definition relationshipOrAbsent (v : value) : Prop :=
  v = undefined \/ exists t, v = str t /\ In t relationshipTypes.

(** The reasons of a match, by what the three comparisons said. *)
Definition reasonsOf (phone mail name : bool) : list string :=
  (if phone then ["Phone number match"] else [])
  ++ (if mail then ["Email match"] else [])
  ++ (if name then ["Name similarity"] else []).

(** A score of the detector in tenths: the scores are 0, 0.3, 0.4, 0.7,
    0.8 and 1.1, and the bounds lie between them. *)
Definition tenthsOf (score : float) : nat :=
  if (1 <? score)%float then 11
  else if (0.75 <? score)%float then 8
  else if (0.55 <? score)%float then 7
  else if (0.35 <? score)%float then 4
  else if (0.15 <? score)%float then 3
  else 0.

(** The existing contacts that the loop of [detectDuplicates] keeps, as
    the matches it pushes, before they are sorted. *)
Definition pushed (contact : contactParser.Contact)
  (found : list duplicateDetector.Row) : list duplicateDetector.DuplicateMatch :=
  List.map (duplicateDetector.matchOf contact)
    (filter (fun existing =>
               (0.4 <=? fst (duplicateDetector.scoreOf contact existing))%float)
       found).

(** The score of the match is one that the loop can give. *)
Definition scored (d : duplicateDetector.DuplicateMatch) : Prop :=
  exists phone mail name,
    duplicateDetector.similarityScore d = Spec.weightedScore phone mail name.

(** The score of a match in tenths. *)
Definition rank (d : duplicateDetector.DuplicateMatch) : nat :=
  tenthsOf (duplicateDetector.similarityScore d).

(** No match has more tenths than one before it. *)
Definition byRank (l : list duplicateDetector.DuplicateMatch) : Prop :=
  StronglySorted (fun a b => rank b <= rank a) l.

(** While the conditions of the query are collected, each placeholder
    written so far, in the query or in a condition, has its parameter, and
    [paramCount] is the number of the next one. *)
Definition collecting (b : duplicateDetector.Builder) : Prop :=
  occurrences "$" (duplicateDetector.query b)
  + list_sum (List.map (occurrences "$") (duplicateDetector.conditions b))
  = List.length (duplicateDetector.params b)
  /\ duplicateDetector.paramCount b
     = S (List.length (duplicateDetector.params b)).

(** The paragraph that the notes of a merged duplicate become. *)
Definition noteOf (duplicate : duplicateDetector.Row) : string :=
  "Merged from contact ID "
  +++ number_to_string (duplicateDetector.id duplicate) +++ ": "
  +++ or_empty (duplicateDetector.notes duplicate).

(** The notes after a merge: the notes of the primary, when it has some,
    and then a paragraph for each duplicate that has notes, in the order
    of the duplicates, with an empty line between two paragraphs. *)
Definition mergedNotes (primary : value)
  (found : list duplicateDetector.Row) : value :=
  match List.map noteOf
          (filter (fun d => truthy (duplicateDetector.notes d)) found) with
  | [] => primary
  | paragraphs =>
      str (join (nl +++ nl)
             (if truthy primary then or_empty primary :: paragraphs
              else paragraphs))
  end.

(** The matches of a list that have a given score. *)
Definition withScore (score : float)
  (matches : list duplicateDetector.DuplicateMatch)
  : list duplicateDetector.DuplicateMatch :=
  filter (fun d => PrimFloat.eqb (duplicateDetector.similarityScore d) score)
    matches.

(** No match has a higher score than one before it. *)
Definition descending (matches : list duplicateDetector.DuplicateMatch) : Prop :=
  StronglySorted
    (fun d1 d2 =>
       (duplicateDetector.similarityScore d2
        <=? duplicateDetector.similarityScore d1)%float = true)
    matches.

End Props.

(** ** The edit distance, to compare the matrix of the scorer with *)

Module Distance.
Import Js duplicateDetector.

(** The Levenshtein distance by its recurrence: to an empty string it is
    the length of the other; two strings with the same first character
    are as far apart as their rests; otherwise one substitution,
    insertion or deletion is paid and the cheapest rest is taken. *)
Fixpoint editDistance (a : string) : string -> nat :=
  fix toward (b : string) : nat :=
    match a, b with
    | EmptyString, _ => String.length b
    | _, EmptyString => String.length a
    | String x a', String y b' =>
        if Ascii.eqb x y then editDistance a' b'
        else S (min3 (editDistance a' b') (toward b') (editDistance a' b))
    end.

(** [s] reversed in front of [onto]. *)
Fixpoint reverseOnto (s onto : string) : string :=
  match s with
  | EmptyString => onto
  | String c s' => reverseOnto s' (String c onto)
  end.

Definition reverse (s : string) : string := reverseOnto s "".

(** [matrix[s2.length][s1.length]], the cell that [calculateSimilarity]
    reads as [distance]. *)
Definition distanceOf (s1 s2 : string) : nat :=
  nth (String.length s1) (nth (String.length s2) (levenshteinMatrix s1 s2) []) 0.

(** The cells of a row to the right of a column: the distances from the
    prefix [a] of [s2] (read from its end) to the prefixes of [s1] that
    extend [q] by the characters of [rest], one more at each cell. *)
Fixpoint rowFrom (a q rest : string) : list nat :=
  match rest with
  | EmptyString => []
  | String c rest' => editDistance a (String c q) :: rowFrom a (String c q) rest'
  end.

(** The rows below a row: those of the prefixes that extend [a] by the
    characters of [rest]. *)
Fixpoint rowsFrom (s1 a rest : string) : list (list nat) :=
  match rest with
  | EmptyString => []
  | String c rest' =>
      (editDistance (String c a) "" :: rowFrom (String c a) "" s1)
      :: rowsFrom s1 (String c a) rest'
  end.

(** The longest string for which the scores are checked one by one. *)
Definition lengthLimit : nat := 4000.

(** Whether [1 - distance / maxLength], computed in binary64 as
    [calculateSimilarity] does, is at least 0 and below 1. *)
Definition within (distance maxLength : float) : bool :=
  let score := (1 - distance / maxLength)%float in
  (0 <=? score)%float && (score <=? 1)%float && (score <? 1)%float.

(** [within] for [count] distances from [distance] on. *)
Fixpoint columnWithin (count : nat) (distance : PrimInt63.int)
  (maxLength : float) : bool :=
  match count with
  | O => true
  | S count' =>
      within (PrimFloat.of_uint63 distance) maxLength
      && columnWithin count' (distance + 1)%uint63 maxLength
  end.

(** [within] for [count] lengths from [maxLength] on, each with the
    distances from 1 to that length. *)
Fixpoint rowsWithin (count length : nat) (maxLength : PrimInt63.int) : bool :=
  match count with
  | O => true
  | S count' =>
      columnWithin length 1%uint63 (PrimFloat.of_uint63 maxLength)
      && rowsWithin count' (S length) (maxLength + 1)%uint63
  end.

End Distance.

(** ** The raw import of the contacts router

    The handler of [POST /import/raw], which calls the parser and the
    detector: the request gives it [req.body.rawData] and [req.user.id],
    and what it passes to [res] is its response. *)

Module contactsRoutes.
Import Js duplicateDetector.

(** What [executeSingleQuery] resolves to. *)
Record SingleResult : Type := mkSingleResult {
  rowCount : nat;
  insertId : nat
}.

(** An entry of [duplicateResults]: [{ contact, duplicates }]. *)
Record DuplicateReport : Type := mkDuplicateReport {
  contact : contactParser.Contact;
  reported : list DuplicateMatch
}.

(** [summary]: [{ total, imported, duplicates, failed }]. *)
Record Summary : Type := mkSummary {
  total : nat;
  imported : nat;
  duplicated : nat;
  failed : Z
}.

(** The body of the answer to a successful import:
    [{ message, summary, imported, duplicates }]. *)
Record ImportBody : Type := mkImportBody {
  message : string;
  summary : Summary;
  importedContacts : list (option Row);
  duplicateResults : list DuplicateReport
}.

(** [res.status(400).json({ error })], [res.status(500).json({ error })]
    and [res.json(body)]. *)
Inductive response : Type :=
| status400 (error : string)
| status500 (error : string)
| status200 (body : ImportBody).

Definition insertContact : string :=
  "INSERT INTO contacts (" +++ nl
  +++ "          first_name, last_name, phone_number, email, relationship_type,"
  +++ nl
  +++ "          data_owner, source, created_by" +++ nl
  +++ "        ) VALUES (?, ?, ?, ?, ?, ?, ?, ?)".

Definition selectById : string := "SELECT * FROM contacts WHERE id = ?".

(** [contact.relationship_type || 'Other'] *)
Definition orOther (v : value) : value := if truthy v then v else str "Other".

(** The parameters of the insertion; a parsed contact has no
    [data_owner]. *)
Definition insertParams (c : contactParser.Contact) (userId : nat)
  : list param :=
  [text (contactParser.first_name c); text (contactParser.last_name c);
   text (contactParser.phone_number c); text (contactParser.email c);
   text (orOther (contactParser.relationship_type c)); text undefined;
   text (str "Raw Data"); int userId].

Section Handlers.

Variable DB : Type.
Variable executeQuery : string -> list param -> M DB QueryResult.
Variable executeSingleQuery : string -> list param -> M DB SingleResult.

Notation "x <- m ;; k" := (bind DB m (fun x => k))
  (at level 61, m at next level, right associativity).

(** The loop that checks each parsed contact for duplicates. *)
Fixpoint checkDuplicates (parsedContacts : list contactParser.Contact)
  (duplicateResults : list DuplicateReport)
  (validContacts : list contactParser.Contact)
  : M DB (list DuplicateReport * list contactParser.Contact) :=
  match parsedContacts with
  | [] => ret (duplicateResults, validContacts)
  | contact :: others =>
      duplicateCheck <- detectDuplicates DB executeQuery contact None ;;
      if hasDuplicates duplicateCheck
      then checkDuplicates others
             (duplicateResults
                ++ [mkDuplicateReport contact (duplicates duplicateCheck)])
             validContacts
      else checkDuplicates others duplicateResults (validContacts ++ [contact])
  end.

(** The loop that inserts the valid contacts and reads each one back. *)
Fixpoint insertContacts (validContacts : list contactParser.Contact)
  (userId : nat) (insertedContacts : list (option Row))
  : M DB (list (option Row)) :=
  match validContacts with
  | [] => ret insertedContacts
  | contact :: others =>
      result <- executeSingleQuery insertContact (insertParams contact userId) ;;
      contactResult <- executeQuery selectById [int (insertId result)] ;;
      insertContacts others userId
        (insertedContacts ++ [hd_error (rows contactResult)])
  end.

(** The body of the [try]. *)
Definition importRawBody (rawData : value) (userId : nat) : M DB response :=
  if negb (truthy rawData) then ret (status400 "Raw data is required")
  else
    let parsedContacts := contactParser.parseRawContactData (or_empty rawData) in
    if List.length parsedContacts =? 0
    then ret (status400 "No valid contacts found in the raw data")
    else
      checked <- checkDuplicates parsedContacts [] [] ;;
      let duplicateResults := fst checked in
      let validContacts := snd checked in
      insertedContacts <- insertContacts validContacts userId [] ;;
      ret (status200
             {| message := "Raw data import completed";
                summary :=
                  {| total := List.length parsedContacts;
                     imported := List.length insertedContacts;
                     duplicated := List.length duplicateResults;
                     failed :=
                       (Z.of_nat (List.length parsedContacts)
                        - Z.of_nat (List.length insertedContacts)
                        - Z.of_nat (List.length duplicateResults))%Z |};
                importedContacts := insertedContacts;
                duplicateResults := duplicateResults |}).

(** The handler: whatever is thrown becomes the answer 500. *)
Definition importRaw (rawData : value) (userId : nat) (db : DB)
  : response * DB :=
  match importRawBody rawData userId db with
  | (inr answer, db') => (answer, db')
  | (inl error, db') => (status500 "Failed to import raw data", db')
  end.

End Handlers.

End contactsRoutes.

(** ** More stores to run the code against *)

Module MoreStores.
Import Js duplicateDetector Stores.

(** The store in memory, except that it refuses to delete. *)
Definition keeping : string -> list param -> M Table QueryResult :=
  fun q ps table =>
    if String.prefix deleteIn q
    then (inl (Error "SQLITE_CONSTRAINT: FOREIGN KEY constraint failed"), table)
    else inMemory q ps table.

(** What [detectDuplicates] answers for the candidate on the book. *)
Definition candidateReport : DuplicateResult :=
  {| hasDuplicates := true;
     duplicates := [matchOf candidate annie; matchOf candidate ann];
     totalDuplicates := 2 |}.

(** A candidate who has the name of a stored contact and nothing else. *)
Definition namesake : contactParser.Contact :=
  contactParser.mkContact (str "Ann") (str "Lee") null null undefined.

(** Contacts with notes. *)
Definition noted (i : nat) (note : value) : Row :=
  {| id := i; first_name := str "Ann"; last_name := null;
     phone_number := str "+11234567890"; email := null;
     relationship_type := str "Other"; data_owner := null;
     source := str "CSV"; status := str "Active"; notes := note;
     created_by := Some 7; created_at := str "2024-01-01 00:00:00";
     updated_at := str "2024-01-01 00:00:00" |}.

Definition notedBook : Table :=
  [noted 1 (str "VIP"); noted 2 null; noted 3 (str "met at the fair")].

(** The store in memory with the two queries of the raw import: an
    insertion adds a row with the next id, and a selection by id returns
    the rows with that id. *)
Definition inserted (table : Table) (ps : list param) : Row :=
  {| id := S (List.length table);
     first_name := valueOf (nth_error ps 0);
     last_name := valueOf (nth_error ps 1);
     phone_number := valueOf (nth_error ps 2);
     email := valueOf (nth_error ps 3);
     relationship_type := valueOf (nth_error ps 4);
     data_owner := valueOf (nth_error ps 5);
     source := valueOf (nth_error ps 6);
     status := str "Active";
     notes := null;
     created_by := match nth_error ps 7 with Some (int i) => Some i | _ => None end;
     created_at := str "CURRENT_TIMESTAMP";
     updated_at := str "CURRENT_TIMESTAMP" |}.

Definition running : string -> list param -> M Table contactsRoutes.SingleResult :=
  fun q ps table =>
    (inr (contactsRoutes.mkSingleResult 1 (S (List.length table))),
     table ++ [inserted table ps]).

Definition reading : string -> list param -> M Table QueryResult :=
  fun q ps table =>
    if String.eqb q contactsRoutes.selectById then
      match ps with
      | [int i] => (inr (mkQueryResult (filter (fun r => id r =? i) table)), table)
      | _ => (inl (Error "SQLITE_RANGE: bind or column index out of range"), table)
      end
    else inMemory q ps table.

(** A store that cannot be searched: it rejects every query but the
    selection by id, which finds nothing, and accepts every insertion. *)
Definition blind : string -> list param -> M unit QueryResult :=
  fun q ps db =>
    if String.eqb q contactsRoutes.selectById
    then (inr (mkQueryResult []), db)
    else failing q ps db.

Definition accepting : string -> list param -> M unit contactsRoutes.SingleResult :=
  fun q ps db => (inr (contactsRoutes.mkSingleResult 1 1), db).

(** A text of two lines: a contact of the book and a new one. *)
Definition twoLines : string :=
  "Ann Lee, (123) 456-7890, second@example.com" +++ nl
  +++ "Zoe Park, 555-010-9999".

End MoreStores.

(** ** Facts about the string primitives *)

Section StringFacts.
Import Js.

Lemma prefix_empty (s : string) : String.prefix "" s = true.
Proof. destruct s; reflexivity. Qed.

Lemma includes_empty (s : string) : includes s "" = true.
Proof. destruct s; reflexivity. Qed.

Lemma nonempty_true (s : string) : nonempty s = true <-> s <> "".
Proof. destruct s; simpl; split; congruence. Qed.

Lemma truthy_str (s : string) : truthy (str s) = nonempty s.
Proof. destruct s; reflexivity. Qed.

Lemma truthy_is_str (v : value) :
  truthy v = true -> exists s, v = str s /\ s <> "".
Proof.
  destruct v as [| |s]; simpl; try discriminate.
  destruct s; try discriminate. intros _. eexists; split; [reflexivity|discriminate].
Qed.

Lemma length_remove_all (p : ascii -> bool) (s : string) :
  String.length (remove_all p s) <= String.length s.
Proof.
  induction s as [|c s IH]; simpl; [lia|].
  destruct (p c); simpl; lia.
Qed.

(** A string without a character of the class is left as it is, and so
    are its suffixes. *)
Lemma remove_all_fixed_tail (p : ascii -> bool) (c : ascii) (s : string) :
  remove_all p (String c s) = String c s -> p c = false /\ remove_all p s = s.
Proof.
  simpl. destruct (p c) eqn:E.
  - intros H. pose proof (length_remove_all p s) as L.
    rewrite H in L. simpl in L. lia.
  - intros H. split; [reflexivity|congruence].
Qed.

Lemma remove_all_fixed_drop (p : ascii -> bool) (n : nat) (s : string) :
  remove_all p s = s -> remove_all p (drop n s) = drop n s.
Proof.
  revert s. induction n as [|n IH]; intros s H; [exact H|].
  destruct s as [|c s]; [reflexivity|].
  apply remove_all_fixed_tail in H as [_ H]. simpl. now apply IH.
Qed.

Lemma remove_all_idempotent (p : ascii -> bool) (s : string) :
  remove_all p (remove_all p s) = remove_all p s.
Proof.
  induction s as [|c s IH]; simpl; [reflexivity|].
  destruct (p c) eqn:E; [exact IH|].
  simpl. rewrite E, IH. reflexivity.
Qed.

Lemma length_drop (n : nat) (s : string) :
  String.length (drop n s) = String.length s - n.
Proof.
  revert s. induction n as [|n IH]; intros [|c s]; simpl; auto; lia.
Qed.

Lemma remove_all_no_digit (s : string) :
  Spec.containsDigit s = false -> remove_all contactParser.notDigit s = "".
Proof.
  induction s as [|c s IH]; simpl; [reflexivity|].
  intros H. apply orb_false_iff in H as [Hc Hs].
  unfold contactParser.notDigit at 1. rewrite Hc. simpl. now apply IH.
Qed.

End StringFacts.

(** ** The similarity scorer *)

Section SimilarityScorer.
Import Js duplicateDetector.

Lemma normalizePhoneNumber_digits (phone : value) :
  remove_all notDigit (normalizePhoneNumber phone) = normalizePhoneNumber phone.
Proof.
  unfold normalizePhoneNumber.
  destruct (truthy phone); cbn [negb]; [|reflexivity].
  set (cleaned := remove_all notDigit (or_empty phone)).
  destruct ((String.length cleaned =? 11) && startsWith cleaned "1").
  - apply remove_all_fixed_drop, remove_all_idempotent.
  - apply remove_all_idempotent.
Qed.

Lemma normalizePhoneNumber_not_eleven_with_one (phone : value) :
  (String.length (normalizePhoneNumber phone) =? 11)
  && startsWith (normalizePhoneNumber phone) "1" = false.
Proof.
  unfold normalizePhoneNumber.
  destruct (truthy phone); cbn [negb]; [|reflexivity].
  set (cleaned := remove_all notDigit (or_empty phone)).
  destruct ((String.length cleaned =? 11) && startsWith cleaned "1") eqn:E;
    [|exact E].
  apply andb_true_iff in E as [E _]. apply Nat.eqb_eq in E.
  rewrite length_drop, E. reflexivity.
Qed.

(** C9.  [normalizePhoneNumber] is idempotent: normalizing the string it
    returns gives that string again, whatever the argument (a string,
    [null] or nothing). *)
Theorem normalizePhoneNumber_idempotent (x : value) :
  normalizePhoneNumber (str (normalizePhoneNumber x)) = normalizePhoneNumber x.
Proof.
  pose proof (normalizePhoneNumber_digits x) as D.
  pose proof (normalizePhoneNumber_not_eleven_with_one x) as E.
  set (n := normalizePhoneNumber x) in *.
  unfold normalizePhoneNumber at 1.
  rewrite truthy_str. destruct n as [|c n]; [reflexivity|].
  cbn [nonempty negb or_empty]. rewrite D, E. reflexivity.
Qed.

Lemma normalizePhoneNumber_no_digit (p : string) :
  Spec.containsDigit p = false -> normalizePhoneNumber (str p) = "".
Proof.
  intros H. unfold normalizePhoneNumber.
  destruct (truthy (str p)); cbn [negb or_empty]; [|reflexivity].
  change notDigit with contactParser.notDigit.
  rewrite (remove_all_no_digit p H). reflexivity.
Qed.

(** C10.  Two non-empty phone strings of which one has no digit are
    similar: the digit-free one normalizes to the empty string, which
    every string includes. *)
Theorem arePhoneNumbersSimilar_without_digits (p1 p2 : string) :
  p1 <> "" -> p2 <> "" ->
  Spec.containsDigit p1 = false \/ Spec.containsDigit p2 = false ->
  arePhoneNumbersSimilar (str p1) (str p2) = true.
Proof.
  intros N1 N2 H. unfold arePhoneNumbersSimilar.
  rewrite !truthy_str.
  apply nonempty_true in N1, N2. rewrite N1, N2. cbn [negb orb].
  destruct (String.eqb _ _); [reflexivity|].
  destruct H as [H|H]; rewrite (normalizePhoneNumber_no_digit _ H).
  - rewrite includes_empty, orb_true_r. reflexivity.
  - rewrite includes_empty. reflexivity.
Qed.

(** C10 on a word against a number. *)
Lemma arePhoneNumbersSimilar_without_digits_witness :
  arePhoneNumbersSimilar (str "unknown") (str "+1 (555) 010-2030") = true.
Proof.
  apply (arePhoneNumbersSimilar_without_digits "unknown" "+1 (555) 010-2030").
  - discriminate.
  - discriminate.
  - left. reflexivity.
Defined.

(** C6, as the code has it.  A non-empty string is fully similar to
    itself, and the empty string has similarity [0] with it. *)
Theorem calculateSimilarity_self_and_empty (a : string) :
  a <> "" ->
  calculateSimilarity (str a) (str a) = 1%float
  /\ calculateSimilarity (str "") (str a) = 0%float.
Proof.
  intros N. split; [|reflexivity].
  unfold calculateSimilarity. rewrite truthy_str.
  apply nonempty_true in N. rewrite N. cbn [negb orb].
  rewrite String.eqb_refl. reflexivity.
Qed.

(** C6 on a name. *)
Lemma calculateSimilarity_self_and_empty_witness :
  calculateSimilarity (str "Ann Lee") (str "Ann Lee") = 1%float
  /\ calculateSimilarity (str "") (str "Ann Lee") = 0%float.
Proof.
  apply (calculateSimilarity_self_and_empty "Ann Lee"). discriminate.
Defined.

(** C6, as the specification has it, fails at the empty string: the guard
    on falsy arguments comes first and returns [0]. *)
Lemma calculateSimilarity_empty_self :
  calculateSimilarity (str "") (str "") = 0%float
  /\ calculateSimilarity (str "") (str "") <> 1%float.
Proof.
  split; [reflexivity|].
  intros H. apply (f_equal (fun x => (x <? 0.5)%float)) in H.
  vm_compute in H. discriminate.
Qed.

End SimilarityScorer.

(** ** The line parser and the batch parser *)

Section Parser.
Import Js contactParser Lines.

(** C8.  [parseContactLine] tries the comma, tab, space and pattern
    strategies in this order and returns the first result that is not
    [null]; the line of the specification is parsed by the comma strategy
    into John / Doe / +11234567890 / john@example.com / Client. *)
Theorem parseContactLine_strategy_order :
  (forall line,
      parseContactLine line =
      Spec.first_success
        [parseCommaSeparated; parseTabSeparated; parseSpaceSeparated;
         parseByPattern] line)
  /\ parseCommaSeparated johnDoe =
     Some {| first_name := str "John"; last_name := str "Doe";
             phone_number := str "+11234567890";
             email := str "john@example.com";
             relationship_type := str "Client" |}
  /\ parseContactLine johnDoe = parseCommaSeparated johnDoe.
Proof.
  split; [|split].
  - intros line. unfold parseContactLine, Spec.first_success.
    destruct (parseCommaSeparated line); [reflexivity|].
    destruct (parseTabSeparated line); [reflexivity|].
    destruct (parseSpaceSeparated line); [reflexivity|].
    destruct (parseByPattern line); reflexivity.
  - vm_compute. reflexivity.
  - vm_compute. reflexivity.
Qed.

Lemma parseStep_keptOf (parseLine : string -> exn + option Contact)
  (contacts : list Contact) (line_i : string) :
  nonempty (trim line_i) = true ->
  parseStep parseLine contacts line_i =
  contacts ++ Spec.keptOfWith parseLine (trim line_i).
Proof.
  intros N. unfold parseStep, Spec.keptOfWith. rewrite N. cbn [negb].
  destruct (parseLine (trim line_i)) as [error|[contact|]];
    try now rewrite app_nil_r.
  destruct (truthy (first_name contact) && truthy (phone_number contact));
    [reflexivity|now rewrite app_nil_r].
Qed.

Lemma fold_left_parseStep (parseLine : string -> exn + option Contact)
  (lines : list string) (contacts : list Contact) :
  (forall line, In line lines -> nonempty (trim line) = true) ->
  fold_left (parseStep parseLine) lines contacts =
  contacts ++ flat_map (Spec.keptOfWith parseLine) (List.map trim lines).
Proof.
  revert contacts. induction lines as [|line lines IH]; intros contacts N.
  - cbn. now rewrite app_nil_r.
  - cbn [fold_left List.map flat_map].
    rewrite IH by (intros l I; apply N; now right).
    rewrite parseStep_keptOf by (apply N; now left).
    now rewrite <- app_assoc.
Qed.

Lemma nonBlankLines_nonempty (rawData line : string) :
  In line (nonBlankLines rawData) -> nonempty (trim line) = true.
Proof. unfold nonBlankLines. intros H. now apply filter_In in H. Qed.

Lemma parseRawContactDataWith_flat_map
  (parseLine : string -> exn + option Contact) (rawData : string) :
  parseRawContactDataWith parseLine rawData =
  flat_map (Spec.keptOfWith parseLine) (List.map trim (nonBlankLines rawData)).
Proof.
  unfold parseRawContactDataWith.
  now rewrite fold_left_parseStep by apply nonBlankLines_nonempty.
Qed.

Lemma prefix_nl (c : ascii) (s t : string) :
  String.prefix nl (String c s) = String.prefix nl (String c t).
Proof.
  unfold nl. cbn [String.prefix]. now rewrite !prefix_empty.
Qed.

Lemma split_from_nl (before after cur : string) :
  split_from nl 0 cur (before +++ nl +++ after) =
  split_from nl 0 cur before ++ split nl after.
Proof.
  revert cur. induction before as [|c before IH]; intros cur.
  - assert (P : String.prefix nl (String (ascii_of_nat 10) after) = true).
    { unfold nl. cbn [String.prefix].
      destruct (ascii_dec (ascii_of_nat 10) (ascii_of_nat 10));
        [apply prefix_empty|congruence]. }
    change ("" +++ nl +++ after) with (String (ascii_of_nat 10) after).
    cbn [split_from]. rewrite P. reflexivity.
  - cbn [String.append split_from].
    rewrite (prefix_nl c (before +++ nl +++ after) before).
    destruct (String.prefix nl (String c before)).
    + cbn [app]. f_equal. apply IH.
    + apply IH.
Qed.

Lemma nonBlankLines_app (before after : string) :
  nonBlankLines (before +++ nl +++ after) =
  nonBlankLines before ++ nonBlankLines after.
Proof.
  unfold nonBlankLines, split. rewrite split_from_nl. apply filter_app.
Qed.

(** C7.  The batch parser treats the non-blank lines one by one: its
    output is, in the order of the lines, what each trimmed line yields,
    which is the parsed contact when the line parser returns one with a
    non-empty first name and a non-empty phone number, and nothing when
    every strategy fails or when parsing the line throws.  The loop catches
    what a line throws, so the call always returns its list.  No line
    changes what another yields: a text is parsed as its part before a line
    break followed by its part after it. *)
Theorem parseRawContactData_line_by_line (rawData : string) :
  (forall parseLine,
      parseRawContactDataWith parseLine rawData =
      flat_map (Spec.keptOfWith parseLine)
        (List.map trim (nonBlankLines rawData)))
  /\ (forall parseLine line error,
        parseLine line = inl error -> Spec.keptOfWith parseLine line = [])
  /\ parseRawContactData rawData =
     flat_map Spec.keptOf (List.map trim (nonBlankLines rawData))
  /\ (forall contact, In contact (parseRawContactData rawData) ->
        truthy (first_name contact) = true
        /\ truthy (phone_number contact) = true)
  /\ (forall line,
        parseCommaSeparated line = None -> parseTabSeparated line = None ->
        parseSpaceSeparated line = None -> parseByPattern line = None ->
        Spec.keptOf line = [])
  /\ (forall before after,
        rawData = before +++ nl +++ after ->
        parseRawContactData rawData =
        parseRawContactData before ++ parseRawContactData after).
Proof.
  assert (E : forall text, parseRawContactData text =
                flat_map Spec.keptOf (List.map trim (nonBlankLines text))).
  { intros text. apply parseRawContactDataWith_flat_map. }
  split; [intros parseLine; apply parseRawContactDataWith_flat_map|].
  split; [intros parseLine line error H; unfold Spec.keptOfWith; now rewrite H|].
  split; [apply E|split; [|split]].
  - intros contact H. rewrite E in H.
    apply in_flat_map in H as (line & _ & H).
    unfold Spec.keptOf, Spec.keptOfWith in H.
    destruct (parseContactLine line) as [c|]; [|contradiction].
    destruct (truthy (first_name c) && truthy (phone_number c)) eqn:T;
      [|contradiction].
    destruct H as [<-|[]]. now apply andb_true_iff in T.
  - intros line H1 H2 H3 H4.
    unfold Spec.keptOf, Spec.keptOfWith, parseContactLine.
    now rewrite H1, H2, H3, H4.
  - intros before after ->.
    rewrite !E, nonBlankLines_app, map_app, flat_map_app. reflexivity.
Qed.

(** C7 on a text of three lines that parse and one that fails every
    strategy. *)
Lemma parseRawContactData_line_by_line_witness :
  parseRawContactData threeAndOne =
  [ {| first_name := str "John"; last_name := str "Doe";
       phone_number := str "+11234567890"; email := str "john@example.com";
       relationship_type := str "Client" |};
    {| first_name := str "Jane"; last_name := str "Smith";
       phone_number := str "+19876543210"; email := null;
       relationship_type := str "Other" |};
    {| first_name := str "Ravi"; last_name := str "Kumar";
       phone_number := str "+919876543210"; email := undefined;
       relationship_type := undefined |} ].
Proof.
  rewrite (proj1 (proj2 (proj2 (parseRawContactData_line_by_line threeAndOne)))).
  vm_compute. reflexivity.
Defined.

Lemma validateParsedContact_true (contact : Contact) :
  validateParsedContact contact = true ->
  (exists first, first_name contact = str first /\ first <> "")
  /\ (exists phone, phone_number contact = str phone
                    /\ 10 <= String.length phone)
  /\ (forall mail, email contact = str mail -> mail <> "" ->
                   includes mail "@" = true).
Proof.
  unfold validateParsedContact, length_of.
  destruct (truthy (first_name contact)) eqn:F; [|discriminate].
  destruct (truthy (phone_number contact)) eqn:P; [|discriminate].
  cbn [negb orb].
  apply truthy_is_str in F as (first & F & NF).
  apply truthy_is_str in P as (phone & P & NP).
  rewrite P. cbn [or_empty].
  destruct (String.length phone <? 10) eqn:L; [discriminate|].
  apply Nat.ltb_ge in L.
  intros H. split; [now exists first|split; [now exists phone|]].
  intros mail M NM. rewrite M in H. rewrite truthy_str in H.
  apply nonempty_true in NM. rewrite NM in H. cbn [or_empty andb] in H.
  now destruct (includes mail "@").
Qed.

Lemma fold_left_parseStepEnhanced
  (parseLine : string -> exn + option Contact) (lines : list string)
  (contacts : list Contact) (contact : Contact) :
  In contact (fold_left (parseStepEnhanced parseLine) lines contacts) ->
  In contact contacts \/ validateParsedContact contact = true.
Proof.
  revert contacts. induction lines as [|line lines IH]; intros contacts H.
  - now left.
  - cbn [fold_left] in H. apply IH in H as [H|H]; [|now right].
    unfold parseStepEnhanced in H.
    destruct (negb (nonempty (trim line))); [now left|].
    destruct (parseLine (trim line)) as [error|parsed]; [now left|].
    destruct (match parsed with
              | Some c => Some c
              | None => parseAlternativeFormats (trim line)
              end) as [c|]; [|now left].
    destruct (validateParsedContact c) eqn:V; [|now left].
    apply in_app_or in H as [H|[<-|[]]]; [now left|now right].
Qed.

(** C3, as the code has it.  Every contact that the enhanced batch path
    returns passes [validateParsedContact]: its first name is a non-empty
    string, its phone number is a string of at least 10 code units (the
    length of the string, whatever its characters), and its email, when
    there is one, contains [@]. *)
Theorem parseRawContactDataEnhanced_valid (rawData : string)
  (contact : Contact) :
  In contact (parseRawContactDataEnhanced rawData) ->
  validateParsedContact contact = true
  /\ (exists first, first_name contact = str first /\ first <> "")
  /\ (exists phone, phone_number contact = str phone
                    /\ 10 <= String.length phone)
  /\ (forall mail, email contact = str mail -> mail <> "" ->
                   includes mail "@" = true).
Proof.
  intros H. unfold parseRawContactDataEnhanced in H.
  unfold parseRawContactDataEnhancedWith in H.
  apply fold_left_parseStepEnhanced in H as [[]|H].
  split; [exact H|now apply validateParsedContact_true].
Qed.

(** C3 on a line whose phone number has ten characters. *)
Lemma parseRawContactDataEnhanced_valid_witness :
  In shortPhone (parseRawContactDataEnhanced "John, 123-456-78")
  /\ validateParsedContact shortPhone = true.
Proof.
  assert (H : In shortPhone (parseRawContactDataEnhanced "John, 123-456-78")).
  { vm_compute. left. reflexivity. }
  split; [exact H|].
  exact (proj1 (parseRawContactDataEnhanced_valid "John, 123-456-78" shortPhone H)).
Defined.

(** C3, as the specification has it, fails: the phone number of a kept
    contact need not have ten digits.  [formatPhoneNumber] returns a number
    of fewer than ten digits as it is written, and the validation measures
    the string. *)
Lemma parseRawContactDataEnhanced_keeps_eight_digits :
  parseRawContactDataEnhanced "John, 123-456-78" = [shortPhone]
  /\ remove_all notDigit (or_empty (phone_number shortPhone)) = "12345678"
  /\ Spec.tenDigits (phone_number shortPhone) = false.
Proof. vm_compute. repeat split. Qed.

(** C4 fails on the code.  On a line that reaches the pattern strategy,
    the phone number found is 123-456-7890, but what the strategy removes
    from the line is the formatted number +11234567890, which the line does
    not contain: the digits stay in the name text and become the last
    name. *)
Theorem parseByPattern_keeps_matched_phone :
  parseCommaSeparated johnDashes = None
  /\ parseTabSeparated johnDashes = None
  /\ parseSpaceSeparated johnDashes = None
  /\ Regex.first_match (nth 0 phonePatterns Regex.Eps) johnDashes
     = Some "123-456-7890"
  /\ extractPhone phonePatterns johnDashes = str "+11234567890"
  /\ remove_first "+11234567890" johnDashes = johnDashes
  /\ parseByPattern johnDashes =
     Some {| first_name := str "John"; last_name := str "123-456-7890";
             phone_number := str "+11234567890"; email := null;
             relationship_type := str "Other" |}
  /\ parseContactLine johnDashes = parseByPattern johnDashes.
Proof. vm_compute. repeat split. Qed.

End Parser.

(** ** The duplicate detector *)

Section Detector.
Import Js duplicateDetector.

Lemma insertByScore_In (d x : DuplicateMatch) (sorted : list DuplicateMatch) :
  In d (insertByScore x sorted) <-> d = x \/ In d sorted.
Proof.
  induction sorted as [|y rest IH]; cbn [insertByScore].
  - cbn. intuition congruence.
  - destruct (0 <? similarityScore x - similarityScore y)%float.
    + cbn. intuition congruence.
    + cbn [In]. rewrite IH. intuition congruence.
Qed.

Lemma fold_left_insertByScore_In (d : DuplicateMatch)
  (duplicates sorted : list DuplicateMatch) :
  In d (fold_left (fun sorted x => insertByScore x sorted) duplicates sorted)
  <-> In d sorted \/ In d duplicates.
Proof.
  revert sorted. induction duplicates as [|x duplicates IH]; intros sorted.
  - cbn. tauto.
  - cbn [fold_left In]. rewrite IH, insertByScore_In. intuition congruence.
Qed.

(** Sorting moves the matches and neither adds nor drops one. *)
Lemma sortByScore_In (d : DuplicateMatch) (duplicates : list DuplicateMatch) :
  In d (sortByScore duplicates) <-> In d duplicates.
Proof.
  unfold sortByScore. rewrite fold_left_insertByScore_In. cbn. tauto.
Qed.

Lemma consider_matchOf (contact : contactParser.Contact)
  (duplicates : list DuplicateMatch) (existing : Row) :
  consider contact duplicates existing =
  if (0.4 <=? fst (scoreOf contact existing))%float
  then duplicates ++ [matchOf contact existing] else duplicates.
Proof.
  unfold consider, matchOf. destruct (scoreOf contact existing). reflexivity.
Qed.

Lemma fold_left_consider_In (contact : contactParser.Contact)
  (d : DuplicateMatch) (found : list Row) (duplicates : list DuplicateMatch) :
  In d (fold_left (consider contact) found duplicates)
  <-> In d duplicates
      \/ exists existing,
           In existing found
           /\ (0.4 <=? fst (scoreOf contact existing))%float = true
           /\ d = matchOf contact existing.
Proof.
  revert duplicates. induction found as [|row found IH]; intros duplicates.
  - cbn. split; [tauto|]. intros [H|(e & [] & _)]. exact H.
  - cbn [fold_left]. rewrite IH, consider_matchOf. clear IH.
    destruct (0.4 <=? fst (scoreOf contact row))%float eqn:T.
    + rewrite in_app_iff. cbn [In]. split.
      * intros [[H|[H|[]]]|(e & I & S & E)].
        -- now left.
        -- right. exists row. split; [now left|]. split; [exact T|now symmetry].
        -- right. exists e. split; [now right|]. now split.
      * intros [H|(e & [<-|I] & S & E)].
        -- now left; left.
        -- left; right; left. now symmetry.
        -- right. exists e. now repeat split.
    + split.
      * intros [H|(e & I & S & E)]; [now left|].
        right. exists e. split; [now right|]. now split.
      * intros [H|(e & [<-|I] & S & E)]; [now left|congruence|].
        right. exists e. now repeat split.
Qed.

(** The guards of the loop are those of the three comparisons, so the
    score is the weighted sum of what the comparisons say. *)
Lemma scoreOf_weighted (contact : contactParser.Contact) (existing : Row) :
  fst (scoreOf contact existing) =
  Spec.weightedScore
    (arePhoneNumbersSimilar (contactParser.phone_number contact)
       (phone_number existing))
    (areEmailsSimilar (contactParser.email contact) (email existing))
    (areNamesSimilar
       (str (fullNameOf (first_name existing) (last_name existing)))
       (str (fullNameOf (contactParser.first_name contact)
               (contactParser.last_name contact)))).
Proof.
  unfold scoreOf.
  set (phone := arePhoneNumbersSimilar _ _).
  set (mail := areEmailsSimilar _ _).
  set (name := areNamesSimilar _ _).
  assert (P : truthy (contactParser.phone_number contact)
              && truthy (phone_number existing) = false -> phone = false).
  { subst phone. unfold arePhoneNumbersSimilar.
    destruct (truthy (contactParser.phone_number contact)),
             (truthy (phone_number existing)); cbn; congruence. }
  assert (M : truthy (contactParser.email contact)
              && truthy (email existing) = false -> mail = false).
  { subst mail. unfold areEmailsSimilar.
    destruct (truthy (contactParser.email contact)),
             (truthy (email existing)); cbn; congruence. }
  assert (N : nonempty (fullNameOf (first_name existing) (last_name existing))
              && nonempty (fullNameOf (contactParser.first_name contact)
                             (contactParser.last_name contact)) = false ->
              name = false).
  { subst name. unfold areNamesSimilar. rewrite !truthy_str.
    destruct (nonempty (fullNameOf (first_name existing) (last_name existing))),
             (nonempty (fullNameOf (contactParser.first_name contact)
                          (contactParser.last_name contact)));
      cbn; congruence. }
  destruct (truthy (contactParser.phone_number contact)
            && truthy (phone_number existing));
    [|rewrite (P eq_refl)];
    (destruct (truthy (contactParser.email contact) && truthy (email existing));
     [|rewrite (M eq_refl)]);
    (destruct (nonempty (fullNameOf (first_name existing) (last_name existing))
               && nonempty (fullNameOf (contactParser.first_name contact)
                              (contactParser.last_name contact)));
     [|rewrite (N eq_refl)]);
    clear P M N;
    try destruct phone; try destruct mail; try destruct name; reflexivity.
Qed.

(** Rounding does not move a score across a threshold: the comparisons of
    the binary64 sum with [0.4] and [0.8] are those of the exact sum. *)
Lemma weightedScore_thresholds (phone mail name : bool) :
  (0.4 <=? Spec.weightedScore phone mail name)%float
  = (4 <=? Spec.tenths phone mail name)
  /\ (0.8 <=? Spec.weightedScore phone mail name)%float
     = (8 <=? Spec.tenths phone mail name).
Proof. destruct phone, mail, name; split; reflexivity. Qed.

Lemma detectDuplicates_returns (DB : Type)
  (executeQuery : string -> list param -> M DB QueryResult)
  (contact : contactParser.Contact) (excludeId : option nat) (db db' : DB)
  (result : QueryResult) :
  executeQuery (query (candidateQuery contact excludeId))
    (params (candidateQuery contact excludeId)) db = (inr result, db') ->
  detectDuplicates DB executeQuery contact excludeId db =
  (let found := sortByScore (fold_left (consider contact) (rows result) []) in
   (inr {| hasDuplicates := 0 <? List.length found;
           duplicates := found;
           totalDuplicates := List.length found |}, db')).
Proof.
  intros H. unfold detectDuplicates, bind, try_catch, ret.
  rewrite H. reflexivity.
Qed.

(** C1.  When the collaborator answers the query with rows, every row gets
    the score +0.4 for similar phones, +0.4 for similar emails and +0.3 for
    similar full names, the full name of a contact being its first and
    last name with a space in between, trimmed; the row is reported
    exactly when the score is at least 0.4, with that score and with
    [isExactMatch] saying whether the score is at least 0.8.  Phone and
    email without the name give exactly 0.8, an exact match. *)
Theorem detectDuplicates_scores (DB : Type)
  (executeQuery : string -> list param -> M DB QueryResult)
  (contact : contactParser.Contact) (excludeId : option nat) (db db' : DB)
  (result : QueryResult) :
  executeQuery (query (candidateQuery contact excludeId))
    (params (candidateQuery contact excludeId)) db = (inr result, db') ->
  exists found,
    detectDuplicates DB executeQuery contact excludeId db =
    (inr {| hasDuplicates := 0 <? List.length found;
            duplicates := found;
            totalDuplicates := List.length found |}, db')
    /\ (forall d, In d found -> In (existingContact d) (rows result))
    /\ (forall existing, In existing (rows result) ->
          let phone :=
            arePhoneNumbersSimilar (contactParser.phone_number contact)
              (phone_number existing) in
          let mail :=
            areEmailsSimilar (contactParser.email contact) (email existing) in
          let name :=
            areNamesSimilar
              (str (trim (or_empty (first_name existing) +++ " "
                          +++ or_empty (last_name existing))))
              (str (trim (or_empty (contactParser.first_name contact) +++ " "
                          +++ or_empty (contactParser.last_name contact)))) in
          let score := Spec.weightedScore phone mail name in
          ((exists d, In d found /\ existingContact d = existing)
           <-> (0.4 <=? score)%float = true)
          /\ (forall d, In d found -> existingContact d = existing ->
                similarityScore d = score
                /\ isExactMatch d = (0.8 <=? score)%float)
          /\ (0.4 <=? score)%float = (4 <=? Spec.tenths phone mail name)
          /\ (0.8 <=? score)%float = (8 <=? Spec.tenths phone mail name))
    /\ Spec.weightedScore true true false = 0.8%float
    /\ (0.8 <=? Spec.weightedScore true true false)%float = true.
Proof.
  intros H. apply detectDuplicates_returns in H. cbv zeta in H.
  set (found := sortByScore (fold_left (consider contact) (rows result) [])) in *.
  assert (F : forall d, In d found <->
                exists existing, In existing (rows result)
                  /\ (0.4 <=? fst (scoreOf contact existing))%float = true
                  /\ d = matchOf contact existing).
  { intros d. subst found. rewrite sortByScore_In, fold_left_consider_In.
    cbn [In]. tauto. }
  exists found. split; [exact H|]. split; [|split; [|split; reflexivity]].
  - intros d I. apply F in I as (e & I & _ & ->). exact I.
  - intros existing I phone mail name score.
    assert (S : fst (scoreOf contact existing) = score)
      by exact (scoreOf_weighted contact existing).
    split; [|split; [|apply weightedScore_thresholds]].
    + split.
      * intros (d & Id & E). apply F in Id as (e & _ & T & ->).
        cbn in E. subst e. now rewrite <- S.
      * intros T. exists (matchOf contact existing). split; [|reflexivity].
        apply F. exists existing. now rewrite S.
    + intros d Id E. apply F in Id as (e & _ & _ & ->).
      cbn in E. subst e. cbn. now rewrite S.
Qed.

(** C2, as the code has it.  When the collaborator rejects the query,
    [detectDuplicates] catches the error and returns the result of a
    detection that has found nothing. *)
Theorem detectDuplicates_catches (DB : Type)
  (executeQuery : string -> list param -> M DB QueryResult)
  (contact : contactParser.Contact) (excludeId : option nat) (db db' : DB)
  (error : exn) :
  executeQuery (query (candidateQuery contact excludeId))
    (params (candidateQuery contact excludeId)) db = (inl error, db') ->
  detectDuplicates DB executeQuery contact excludeId db =
  (inr {| hasDuplicates := false; duplicates := []; totalDuplicates := 0 |},
   db').
Proof.
  intros H. unfold detectDuplicates, bind, try_catch, ret.
  rewrite H. reflexivity.
Qed.

End Detector.

(** ** Runs of the detector against the stores *)

Section DetectorRuns.
Import Js duplicateDetector Stores.

(** C1 on the store in memory, which answers with its three contacts.
    Ann Lee has the phone number and the name of the candidate and no
    email: her score is 0.7, which the name decides, and the match is not
    exact.  The second Ann has the phone number and the email and another
    name: 0.8, an exact match.  Bob Ray has nothing of the candidate and is
    not reported. *)
Lemma detectDuplicates_scores_witness :
  exists found,
    detectDuplicates Table inMemory candidate None book =
    (inr {| hasDuplicates := 0 <? List.length found;
            duplicates := found;
            totalDuplicates := List.length found |}, book)
    /\ (forall d, In d found -> In (existingContact d) book)
    /\ (exists d, In d found /\ existingContact d = ann)
    /\ (forall d, In d found -> existingContact d = ann ->
          similarityScore d = 0.7%float /\ isExactMatch d = false)
    /\ (exists d, In d found /\ existingContact d = annie)
    /\ (forall d, In d found -> existingContact d = annie ->
          similarityScore d = 0.8%float /\ isExactMatch d = true)
    /\ ~ (exists d, In d found /\ existingContact d = bob).
Proof.
  destruct (detectDuplicates_scores Table inMemory candidate None book book
              (mkQueryResult book) eq_refl) as (found & E & I & P & _).
  cbn [rows] in P.
  destruct (P ann (or_introl eq_refl)) as (A1 & A2 & _).
  destruct (P annie (or_intror (or_introl eq_refl))) as (B1 & B2 & _).
  destruct (P bob (or_intror (or_intror (or_introl eq_refl)))) as (C1 & _).
  exists found. split; [exact E|]. split; [exact I|].
  split; [apply (proj2 A1); vm_compute; reflexivity|].
  split.
  { intros d Id Ed. destruct (A2 d Id Ed) as [S X]. rewrite S, X.
    split; vm_compute; reflexivity. }
  split; [apply (proj2 B1); vm_compute; reflexivity|].
  split.
  { intros d Id Ed. destruct (B2 d Id Ed) as [S X]. rewrite S, X.
    split; vm_compute; reflexivity. }
  intros H. apply (proj1 C1) in H. vm_compute in H. discriminate.
Defined.

(** C2 on the store that rejects every query. *)
Lemma detectDuplicates_catches_witness :
  detectDuplicates unit failing candidate None tt =
  (inr {| hasDuplicates := false; duplicates := []; totalDuplicates := 0 |}, tt).
Proof.
  apply (detectDuplicates_catches unit failing candidate None tt tt
           (Error "SQLITE_BUSY: database is locked")).
  reflexivity.
Defined.

(** C2, as the specification has it, fails: the store rejects the query
    and the caller gets a result, not the error. *)
Lemma detectDuplicates_hides_failure :
  failing (query (candidateQuery candidate None))
    (params (candidateQuery candidate None)) tt
  = (inl (Error "SQLITE_BUSY: database is locked"), tt)
  /\ detectDuplicates unit failing candidate None tt
     = (inr {| hasDuplicates := false; duplicates := [];
               totalDuplicates := 0 |}, tt)
  /\ detectDuplicates unit failing candidate None tt
     <> (inl (Error "SQLITE_BUSY: database is locked"), tt).
Proof.
  split; [reflexivity|]. split; [reflexivity|].
  intros H. vm_compute in H. discriminate.
Qed.

End DetectorRuns.

(** ** The merger *)

Section Merger.
Import Js duplicateDetector.

Lemma fold_left_fillIfMissing (duplicates : list value) (primary : value) :
  fold_left fillIfMissing duplicates primary =
  Spec.firstNonEmpty primary duplicates.
Proof.
  revert primary. induction duplicates as [|d duplicates IH]; intros primary.
  - unfold Spec.firstNonEmpty. cbn. now destruct (truthy primary).
  - cbn [fold_left]. rewrite IH. unfold Spec.firstNonEmpty, fillIfMissing.
    cbn [find].
    destruct (truthy primary) eqn:P; cbn [negb andb].
    + now rewrite P.
    + destruct (truthy d) eqn:D; [now rewrite D|now rewrite P].
Qed.

(** A property that [mergeOne] fills when it is missing is, after all the
    duplicates, the primary's value or the first non-empty one of theirs. *)
Lemma fold_left_mergeOne_field (field : Row -> value) :
  (forall merged duplicate,
      field (mergeOne merged duplicate) =
      fillIfMissing (field merged) (field duplicate)) ->
  forall found primary,
    field (fold_left mergeOne found primary) =
    Spec.firstNonEmpty (field primary) (List.map field found).
Proof.
  intros F found primary. rewrite <- fold_left_fillIfMissing.
  revert primary. induction found as [|d found IH]; intros primary.
  - reflexivity.
  - cbn [fold_left List.map]. rewrite IH, F. reflexivity.
Qed.

(** C5, as the code has it.  When the primary exists and the collaborator
    answers the four queries, [mergeContacts] returns a contact in which
    each of the six properties is the primary's value when that is
    non-empty, and otherwise the first non-empty value among the duplicate
    rows, in the order in which the collaborator returned them. *)
Theorem mergeContacts_fills_missing (DB : Type)
  (executeQuery : string -> list param -> M DB QueryResult)
  (primaryContactId : nat) (duplicateContactIds : list nat)
  (db0 db1 db2 db3 db4 : DB) (primaryContact : Row) (others found : list Row)
  (updated deleted : QueryResult) :
  executeQuery selectPrimary [int primaryContactId] db0
  = (inr (mkQueryResult (primaryContact :: others)), db1) ->
  executeQuery (selectDuplicates (joinIds duplicateContactIds)) [] db1
  = (inr (mkQueryResult found), db2) ->
  executeQuery updatePrimary
    (updateParams (fold_left mergeOne found primaryContact) primaryContactId)
    db2
  = (inr updated, db3) ->
  executeQuery (deleteDuplicates (joinIds duplicateContactIds)) [] db3
  = (inr deleted, db4) ->
  exists merged,
    mergeContacts DB executeQuery primaryContactId duplicateContactIds db0
    = (inr {| success := true; mergedContact := merged;
              deletedCount := List.length duplicateContactIds |}, db4)
    /\ first_name merged
       = Spec.firstNonEmpty (first_name primaryContact)
           (List.map first_name found)
    /\ last_name merged
       = Spec.firstNonEmpty (last_name primaryContact)
           (List.map last_name found)
    /\ phone_number merged
       = Spec.firstNonEmpty (phone_number primaryContact)
           (List.map phone_number found)
    /\ email merged
       = Spec.firstNonEmpty (email primaryContact) (List.map email found)
    /\ relationship_type merged
       = Spec.firstNonEmpty (relationship_type primaryContact)
           (List.map relationship_type found)
    /\ data_owner merged
       = Spec.firstNonEmpty (data_owner primaryContact)
           (List.map data_owner found).
Proof.
  intros H1 H2 H3 H4.
  exists (fold_left mergeOne found primaryContact). split.
  - unfold mergeContacts, try_catch, bind, ret.
    rewrite H1. cbv beta iota zeta delta [rows throw].
    rewrite H2. cbv beta iota zeta delta [rows].
    rewrite H3, H4. reflexivity.
  - repeat split; apply fold_left_mergeOne_field; reflexivity.
Qed.

End Merger.

Section MergerRuns.
Import Js duplicateDetector Stores.

(** C5 on the store in memory: contacts 3 and 2 are merged into 1. *)
Lemma mergeContacts_fills_missing_witness :
  exists merged,
    mergeContacts Table inMemory 1 [3; 2] book
    = (inr {| success := true; mergedContact := merged; deletedCount := 2 |},
       afterMerge)
    /\ email merged
       = Spec.firstNonEmpty null
           [str "second@example.com"; str "third@example.com"].
Proof.
  destruct (mergeContacts_fills_missing Table inMemory 1 [3; 2]
              book book book afterUpdate afterMerge ann [] [annie; bob]
              (mkQueryResult []) (mkQueryResult [])
              eq_refl eq_refl eq_refl eq_refl)
    as (merged & E & _ & _ & _ & M & _).
  exists merged. split; [exact E|exact M].
Defined.

(** C5, as the specification has it, fails.  The duplicates 3 and 2 are
    given in this order, the store returns their rows in the order of the
    table, 2 before 3, and the missing email of the primary is taken from
    contact 2, not from contact 3. *)
Lemma mergeContacts_follows_returned_order :
  mergeContacts Table inMemory 1 [3; 2] book
  = (inr {| success := true; mergedContact := annMerged; deletedCount := 2 |},
     afterMerge)
  /\ email annMerged = str "second@example.com"
  /\ Spec.inGivenOrder [3; 2] book = [bob; annie]
  /\ Spec.firstNonEmpty (email ann)
       (List.map email (Spec.inGivenOrder [3; 2] book))
     = str "third@example.com"
  /\ email annMerged
     <> Spec.firstNonEmpty (email ann)
          (List.map email (Spec.inGivenOrder [3; 2] book)).
Proof.
  split; [vm_compute; reflexivity|].
  split; [reflexivity|]. split; [reflexivity|]. split; [reflexivity|].
  vm_compute. discriminate.
Qed.

End MergerRuns.

(** ** Further properties: the normalizers *)

Section Normalizers.
Import Js contactParser.

Lemma append_nonempty (c : ascii) (s t : string) :
  nonempty (String c s +++ t) = true.
Proof. reflexivity. Qed.

Lemma digits_plus (s : string) :
  remove_all notDigit ("+" +++ s) = remove_all notDigit s.
Proof. reflexivity. Qed.

Lemma digits_plus_one (s : string) :
  remove_all notDigit ("+1" +++ s) = String "1" (remove_all notDigit s).
Proof. reflexivity. Qed.

Lemma startsWith_head (c : ascii) (s : string) :
  startsWith (String c s) (String c "") = true.
Proof.
  unfold startsWith. cbn [String.prefix].
  destruct (ascii_dec c c); [apply prefix_empty|congruence].
Qed.

Lemma digits_of_digits (s : string) :
  remove_all notDigit (remove_all notDigit s) = remove_all notDigit s.
Proof. apply remove_all_idempotent. Qed.

(** The branch that [formatPhoneNumber] takes, by the number of digits. *)
Lemma formatPhoneNumber_cases (phone : string) :
  phone <> "" ->
  let cleaned := remove_all notDigit phone in
  (String.length cleaned = 10
   /\ formatPhoneNumber phone = str ("+1" +++ cleaned))
  \/ (String.length cleaned <> 10 /\ 10 <= String.length cleaned
      /\ formatPhoneNumber phone = str ("+" +++ cleaned))
  \/ (String.length cleaned < 10 /\ formatPhoneNumber phone = str phone).
Proof.
  intros N cleaned. unfold formatPhoneNumber. fold cleaned.
  apply nonempty_true in N. rewrite N. cbn [negb].
  destruct (String.length cleaned =? 10) eqn:E10.
  - left. apply Nat.eqb_eq in E10. now split.
  - apply Nat.eqb_neq in E10.
    destruct ((String.length cleaned =? 11) && startsWith cleaned "1") eqn:E11.
    + right; left. apply andb_true_iff in E11 as [E11 _].
      apply Nat.eqb_eq in E11. repeat split; [exact E10|lia].
    + destruct ((String.length cleaned =? 12) && startsWith cleaned "91")
        eqn:E12.
      * right; left. apply andb_true_iff in E12 as [E12 _].
        apply Nat.eqb_eq in E12. repeat split; [exact E10|lia].
      * destruct (10 <=? String.length cleaned) eqn:G.
        -- right; left. apply Nat.leb_le in G. now repeat split.
        -- right; right. apply Nat.leb_gt in G. now split.
Qed.

Lemma normalize_format (phone : string) :
  duplicateDetector.normalizePhoneNumber (formatPhoneNumber phone)
  = duplicateDetector.normalizePhoneNumber (str phone).
Proof.
  destruct phone as [|c phone]; [reflexivity|].
  destruct (formatPhoneNumber_cases (String c phone)) as [H|[H|H]];
    [discriminate|..]; cbv zeta in H.
  - destruct H as [L ->]. unfold duplicateDetector.normalizePhoneNumber.
    cbn [truthy negb or_empty String.append].
    change duplicateDetector.notDigit with notDigit.
    change (String "+" (String "1" ?s)) with ("+1" +++ s).
    rewrite digits_plus_one, digits_of_digits.
    cbn [String.length]. rewrite L, startsWith_head. reflexivity.
  - destruct H as (_ & _ & ->). unfold duplicateDetector.normalizePhoneNumber.
    cbn [truthy negb or_empty String.append].
    change duplicateDetector.notDigit with notDigit.
    change (String "+" ?s) with ("+" +++ s).
    rewrite digits_plus, digits_of_digits. reflexivity.
  - destruct H as [_ ->]. reflexivity.
Qed.

Lemma formatPhoneNumber_truthy (phone : string) :
  phone <> "" -> truthy (formatPhoneNumber phone) = true.
Proof.
  intros N. destruct (formatPhoneNumber_cases phone N) as [H|[H|H]];
    cbv zeta in H.
  - now destruct H as [_ ->].
  - now destruct H as (_ & _ & ->).
  - destruct H as [_ ->]. rewrite truthy_str. now apply nonempty_true.
Qed.

(** X1.  Formatting a phone number does not change the key under which
    the duplicate detector compares it: the normalized form of the
    formatted number is the normalized form of the number as written.  So
    the detector always finds a number similar to its formatted form. *)
Theorem normalizePhoneNumber_formatPhoneNumber (phone : string) :
  duplicateDetector.normalizePhoneNumber (formatPhoneNumber phone)
  = duplicateDetector.normalizePhoneNumber (str phone)
  /\ (phone <> "" ->
      duplicateDetector.arePhoneNumbersSimilar (formatPhoneNumber phone)
        (str phone) = true).
Proof.
  split; [apply normalize_format|]. intros N.
  unfold duplicateDetector.arePhoneNumbersSimilar.
  rewrite (formatPhoneNumber_truthy phone N), truthy_str.
  apply nonempty_true in N. rewrite N. cbn [negb orb].
  now rewrite normalize_format, String.eqb_refl.
Qed.

(** X2.  [formatPhoneNumber] is idempotent: formatting a formatted number
    gives it back, so a number that went through the parser once can go
    through it again. *)
Theorem formatPhoneNumber_idempotent (phone : string) :
  formatPhoneNumber (or_empty (formatPhoneNumber phone))
  = formatPhoneNumber phone.
Proof.
  destruct phone as [|c phone]; [reflexivity|].
  destruct (formatPhoneNumber_cases (String c phone)) as [H|[H|H]];
    [discriminate|..]; cbv zeta in H.
  - destruct H as [L E]. rewrite E. cbn [or_empty].
    unfold formatPhoneNumber at 1.
    rewrite digits_plus_one, digits_of_digits.
    cbn [String.append nonempty negb String.length]. rewrite L.
    rewrite startsWith_head. reflexivity.
  - destruct H as (N & G & E). rewrite E. cbn [or_empty].
    destruct (formatPhoneNumber_cases
                ("+" +++ remove_all notDigit (String c phone)))
      as [H|[H|H]]; [discriminate|..]; cbv zeta in H;
      rewrite digits_plus, digits_of_digits in H.
    + now destruct H.
    + now destruct H as (_ & _ & ->).
    + destruct H as [H _]. lia.
  - destruct H as [_ E]. now rewrite E.
Qed.

(** X3.  A phone number written with at least ten digits is formatted as
    a plus sign followed by digits only, at least eleven of them, with the
    digits in the order in which they were written; the country code 1 is
    put in front of them exactly when there are ten digits. *)
Theorem formatPhoneNumber_ten_digits (phone : string) :
  10 <= String.length (remove_all notDigit phone) ->
  exists body,
    formatPhoneNumber phone = str ("+" +++ body)
    /\ remove_all notDigit body = body
    /\ 11 <= String.length body
    /\ body = (if String.length (remove_all notDigit phone) =? 10
               then String "1" (remove_all notDigit phone)
               else remove_all notDigit phone).
Proof.
  intros G.
  assert (N : phone <> "") by (intros ->; cbn in G; lia).
  destruct (formatPhoneNumber_cases phone N) as [H|[H|H]]; cbv zeta in H.
  - destruct H as [L E]. exists (String "1" (remove_all notDigit phone)).
    split; [exact E|]. split.
    + change (String "1" ?s) with ("1" +++ s) at 1.
      cbn [String.append remove_all]. cbn. now rewrite digits_of_digits.
    + split; [cbn [String.length]; lia|]. now rewrite L.
  - destruct H as (L & _ & E). exists (remove_all notDigit phone).
    split; [exact E|]. split; [apply digits_of_digits|]. split; [lia|].
    apply Nat.eqb_neq in L. now rewrite L.
  - destruct H as [H _]. lia.
Qed.

(** X3 on a number of ten digits, which gets the country code, and on one
    of twelve digits, which does not. *)
Lemma formatPhoneNumber_ten_digits_witness :
  formatPhoneNumber "(987) 654-3210" = str "+19876543210"
  /\ formatPhoneNumber "+44 20 7946 0958" = str "+442079460958".
Proof.
  split.
  - destruct (formatPhoneNumber_ten_digits "(987) 654-3210")
      as (b & E & _ & _ & B).
    + apply Nat.leb_le. reflexivity.
    + rewrite E, B. reflexivity.
  - destruct (formatPhoneNumber_ten_digits "+44 20 7946 0958")
      as (b & E & _ & _ & B).
    + apply Nat.leb_le. reflexivity.
    + rewrite E, B. reflexivity.
Defined.

End Normalizers.

(** ** Further properties: what the regular expressions accept *)

Section RegexFacts.
Import Js Regex.

Lemma prefix_split (t s : string) :
  String.prefix t s = true -> s = t +++ drop (String.length t) s.
Proof.
  revert s. induction t as [|c t IH]; intros s H; [reflexivity|].
  destruct s as [|d s]; [discriminate|].
  cbn [String.prefix] in H. destruct (ascii_dec c d) as [<-|]; [|discriminate].
  cbn [String.append String.length drop]. f_equal. now apply IH.
Qed.

(** What a quantifier has consumed when the match goes on: a run of the
    class within the bounds, and the continuation accepts the rest. *)
Lemma rep_sound (p : ascii -> bool) (k : string -> option string)
  (s : string) :
  forall lo hi rest,
    rep p lo hi s k = Some rest ->
    exists run after,
      s = run +++ after
      /\ Props.allChars p run = true
      /\ lo <= String.length run
      /\ (forall h, hi = Some h -> String.length run <= h)
      /\ k after = Some rest.
Proof.
  assert (Stop : forall lo hi t rest,
             (if lo =? 0 then k t else None) = Some rest ->
             exists run after,
               t = run +++ after
               /\ Props.allChars p run = true
               /\ lo <= String.length run
               /\ (forall h, hi = Some h -> String.length run <= h)
               /\ k after = Some rest).
  { intros lo hi t rest H. destruct (lo =? 0) eqn:E; [|discriminate].
    apply Nat.eqb_eq in E. exists "", t. cbn.
    repeat split; [lia|intros; lia|exact H]. }
  induction s as [|c s IH]; intros lo hi rest H.
  - cbn [rep] in H. now apply Stop.
  - cbn [rep] in H. destruct (p c && more hi) eqn:T; [|now apply Stop].
    destruct (rep p (Nat.pred lo) (option_map Nat.pred hi) s k) as [r|] eqn:R;
      [|now apply Stop].
    injection H as <-. apply andb_true_iff in T as [Pc M].
    apply IH in R as (run & after & -> & A & L & B & K).
    exists (String c run), after. cbn [String.append Props.allChars String.length].
    rewrite Pc, A. repeat split; [lia| |exact K].
    intros h ->. destruct h as [|h]; [discriminate|].
    specialize (B h eq_refl). lia.
Qed.

Lemma lit_sound (t s : string) (k : string -> option string) (rest : string) :
  exec (Lit t) s k = Some rest ->
  exists after, s = t +++ after /\ k after = Some rest.
Proof.
  cbn [exec]. destruct (String.prefix t s) eqn:P; [|discriminate].
  intros H. exists (drop (String.length t) s). split; [|exact H].
  now apply prefix_split.
Qed.

Lemma anchored_end (s rest : string) :
  (if nonempty s then None else Some s) = Some rest -> s = "".
Proof. destruct s; [reflexivity|discriminate]. Qed.

Lemma nonempty_run (s : string) : 1 <= String.length s -> s <> "".
Proof. destruct s; cbn; [lia|discriminate]. Qed.

End RegexFacts.

Section Emails.
Import Js Regex contactParser.

(** X4.  [validateEmail] returns the address as it was given or [null],
    and an address it returns is made of a local part, [@], a domain, a
    dot and an ending, each of them non-empty and free of white space and
    of [@]. *)
Theorem validateEmail_shape (email : string) :
  (validateEmail email = null \/ validateEmail email = str email)
  /\ (validateEmail email <> null ->
      exists local domain ending,
        email = local +++ "@" +++ domain +++ "." +++ ending
        /\ local <> "" /\ domain <> "" /\ ending <> ""
        /\ Props.allChars notSpaceNorAt local = true
        /\ Props.allChars notSpaceNorAt domain = true
        /\ Props.allChars notSpaceNorAt ending = true).
Proof.
  unfold validateEmail.
  destruct (nonempty email); cbn [negb]; [|split; [now left|congruence]].
  destruct (test_anchored emailRegex email) eqn:T;
    [|split; [now left|congruence]].
  split; [now right|]. intros _.
  unfold test_anchored in T.
  destruct (exec emailRegex email _) as [rest|] eqn:E; [|discriminate].
  clear T. unfold emailRegex, seq in E. cbn [fold_right exec] in E.
  apply rep_sound in E as (local & s1 & -> & A1 & L1 & _ & E).
  cbv beta in E.
  destruct (String.prefix "@" s1) eqn:P1; [|discriminate].
  apply prefix_split in P1. remember (drop (String.length "@") s1) as d1.
  apply rep_sound in E as (domain & s2 & D & A2 & L2 & _ & E).
  cbv beta in E.
  destruct (String.prefix "." s2) eqn:P2; [|discriminate].
  apply prefix_split in P2. remember (drop (String.length ".") s2) as d2.
  apply rep_sound in E as (ending & s3 & D3 & A3 & L3 & _ & E).
  apply anchored_end in E. subst s3.
  exists local, domain, ending.
  split.
  - rewrite P1, D, P2, D3. f_equal. f_equal. f_equal. f_equal.
    clear. induction ending; cbn; congruence.
  - repeat split; try assumption; now apply nonempty_run.
Qed.

Lemma validateEmail_shape_witness :
  exists local domain ending,
    "john@example.com" = local +++ "@" +++ domain +++ "." +++ ending
    /\ local <> "" /\ domain <> "" /\ ending <> "".
Proof.
  destruct (proj2 (validateEmail_shape "john@example.com"))
    as (l & d & e & E & Nl & Nd & Ne & _).
  - vm_compute. discriminate.
  - exists l, d, e. now repeat split.
Defined.

End Emails.

(** ** Further properties: relationship types *)

Section RelationshipTypes.
Import Js Regex contactParser.

Lemma detectRelationshipType_enum (text : string) :
  In (detectRelationshipType text) Props.relationshipTypes.
Proof.
  unfold detectRelationshipType, Props.relationshipTypes.
  destruct (negb (nonempty text)); [cbn; tauto|].
  repeat match goal with
         | |- context [if ?b then _ else _] => destruct b
         end; cbn; tauto.
Qed.

Lemma literal_anchored (t s rest : string) :
  (if String.prefix t s
   then (fun r => if nonempty r then None else Some r)
          (drop (String.length t) s)
   else None) = Some rest ->
  s = t.
Proof.
  destruct (String.prefix t s) eqn:P; [|discriminate].
  intros H. apply anchored_end in H. apply prefix_split in P.
  rewrite H in P. rewrite P. clear. induction t; cbn; congruence.
Qed.

(** [/^(client|vendor|lead|partner|other)$/] accepts the five words only. *)
Lemma keyword_sound (s : string) :
  test_anchored keyword s = true ->
  In s ["client"; "vendor"; "lead"; "partner"; "other"].
Proof.
  unfold test_anchored, keyword. cbn [exec].
  repeat match goal with
         | |- context [if String.prefix ?t s then ?a else None] =>
             let E := fresh "E" in
             destruct (if String.prefix t s then a else None) eqn:E;
             [apply literal_anchored in E; subst s; cbn; tauto|clear E]
         end.
  discriminate.
Qed.

Lemma upperChar_lowerChar (c : ascii) : upperChar (lowerChar c) = upperChar c.
Proof. destruct c as [[] [] [] [] [] [] [] []]; reflexivity. Qed.

Lemma titleCase_lower (part : string) :
  toUpperCase (charAt0 part) +++ toLowerCase (drop 1 part)
  = toUpperCase (charAt0 (toLowerCase part)) +++ drop 1 (toLowerCase part).
Proof.
  destruct part as [|c part]; [reflexivity|].
  cbn [charAt0 toLowerCase toUpperCase Js.map drop].
  now rewrite upperChar_lowerChar.
Qed.

(** A token that the space strategy takes for a relationship keyword is
    stored with a capital first letter and the rest in lower case, which
    makes it one of the relationship types. *)
Lemma titleCase_keyword (part : string) :
  test_anchored keyword (toLowerCase part) = true ->
  In (toUpperCase (charAt0 part) +++ toLowerCase (drop 1 part))
    Props.relationshipTypes.
Proof.
  intros H. apply keyword_sound in H. rewrite titleCase_lower.
  cbn [In] in H. unfold Props.relationshipTypes.
  destruct H as [<-|[<-|[<-|[<-|[<-|[]]]]]]; cbn; tauto.
Qed.

Lemma classify_relationshipType (t : Tokens) (part : string) :
  In (relationshipType t) Props.relationshipTypes ->
  In (relationshipType (classify t part)) Props.relationshipTypes.
Proof.
  intros H. unfold classify.
  destruct (negb (truthy (phoneNumber t)) && test phoneish part); [exact H|].
  destruct (negb (truthy (tok_email t)) && includes part "@"); [exact H|].
  destruct (test_anchored keyword (toLowerCase part)) eqn:K; [|exact H].
  cbn [relationshipType]. now apply titleCase_keyword.
Qed.

Lemma fold_left_classify_relationshipType (parts : list string) (t : Tokens) :
  In (relationshipType t) Props.relationshipTypes ->
  In (relationshipType (fold_left classify parts t)) Props.relationshipTypes.
Proof.
  revert t. induction parts as [|part parts IH]; intros t H; [exact H|].
  cbn [fold_left]. apply IH. now apply classify_relationshipType.
Qed.

Lemma fromParts_relationship (parts : list string) (contact : Contact) :
  fromParts parts = Some contact ->
  Props.relationshipOrAbsent (relationship_type contact).
Proof.
  unfold fromParts. destruct (List.length parts <? 2); [discriminate|].
  intros H. injection H as <-. cbn [relationship_type]. unfold assign_if.
  destruct (nth_error parts 3) as [part|]; [|now left].
  destruct (nonempty part); [|now left].
  right. eexists. split; [reflexivity|apply detectRelationshipType_enum].
Qed.

(** X5.  Whatever the line, the relationship type of a parsed contact is
    absent or one of Client, Vendor, Lead, Partner and Other: the comma and
    tab strategies go through [detectRelationshipType], the space strategy
    stores a keyword with a capital first letter, and the pattern strategy
    says Other. *)
Theorem parseContactLine_relationship_type (line : string)
  (contact : Contact) :
  parseContactLine line = Some contact
  \/ parseAlternativeFormats line = Some contact ->
  Props.relationshipOrAbsent (relationship_type contact).
Proof.
  intros [H|H].
  - unfold parseContactLine in H.
    destruct (parseCommaSeparated line) as [c|] eqn:C.
    { injection H as <-. now apply fromParts_relationship in C. }
    destruct (parseTabSeparated line) as [c|] eqn:T.
    { injection H as <-. now apply fromParts_relationship in T. }
    destruct (parseSpaceSeparated line) as [c|] eqn:S.
    { injection H as <-. unfold parseSpaceSeparated in S.
      destruct (List.length (split_ws line) <? 3); [discriminate|].
      destruct (_ || _); [discriminate|].
      injection S as <-. cbn [relationship_type]. right.
      eexists. split; [reflexivity|].
      apply fold_left_classify_relationshipType. cbn. tauto. }
    destruct (parseByPattern line) as [c|] eqn:P; [|discriminate].
    injection H as <-. unfold parseByPattern in P.
    destruct (_ || _); [discriminate|].
    injection P as <-. cbn [relationship_type]. right.
    eexists. split; [reflexivity|cbn; tauto].
  - unfold parseAlternativeFormats in H.
    destruct (2 <=? _); [|discriminate].
    injection H as <-. now left.
Qed.

Lemma parseContactLine_relationship_type_witness :
  Props.relationshipOrAbsent (str "Vendor").
Proof.
  apply (parseContactLine_relationship_type "Mia Wong 555-010-2030 VENDOR"
           {| first_name := str "Mia"; last_name := str "Wong";
              phone_number := str "+15550102030"; email := null;
              relationship_type := str "Vendor" |}).
  left. vm_compute. reflexivity.
Defined.

End RelationshipTypes.

(** ** Further properties: trimming, splitting and names *)

Section Names.
Import Js contactParser.

Lemma trimStart_head (s : string) :
  trimStart s = ""
  \/ exists c t, trimStart s = String c t /\ isWhiteSpace c = false.
Proof.
  induction s as [|c s IH]; [now left|].
  cbn [trimStart]. destruct (isWhiteSpace c) eqn:W; [exact IH|].
  right. now exists c, s.
Qed.

Lemma trimEnd_head (c : ascii) (s : string) :
  isWhiteSpace c = false -> exists t, trimEnd (String c s) = String c t.
Proof.
  intros W. cbn [trimEnd]. destruct (trimEnd s) as [|d t].
  - rewrite W. now exists "".
  - now exists (String d t).
Qed.

(** A trimmed string is empty or starts with a code unit that is not white
    space. *)
Lemma trim_head (s : string) :
  trim s = "" \/ exists c t, trim s = String c t /\ isWhiteSpace c = false.
Proof.
  unfold trim. destruct (trimStart_head s) as [->|(c & t & -> & W)].
  - now left.
  - right. destruct (trimEnd_head c t W) as (t' & ->). now exists c, t'.
Qed.

Lemma trim_trim_nonempty (s : string) :
  nonempty (trim s) = true -> nonempty (trim (trim s)) = true.
Proof.
  destruct (trim_head s) as [->|(c & t & -> & W)]; [discriminate|].
  intros _. unfold trim. cbn [trimStart]. rewrite W.
  destruct (trimEnd_head c t W) as (t' & ->). reflexivity.
Qed.

Lemma allChars_app (p : ascii -> bool) (s t : string) :
  Props.allChars p (s +++ t) = Props.allChars p s && Props.allChars p t.
Proof.
  induction s as [|c s IH]; [reflexivity|].
  cbn [String.append Props.allChars]. rewrite IH. apply andb_assoc.
Qed.

(** No piece of [split(/\s+/)] has white space in it. *)
Lemma split_ws_from_noSpace (s : string) :
  forall in_run cur,
    Props.noSpace cur = true ->
    Forall (fun piece => Props.noSpace piece = true)
      (split_ws_from in_run cur s).
Proof.
  induction s as [|c s IH]; intros in_run cur C.
  - cbn. now constructor.
  - cbn [split_ws_from]. destruct (isWhiteSpace c) eqn:W.
    + destruct in_run; [now apply IH|]. constructor; [exact C|now apply IH].
    + apply IH. unfold Props.noSpace in *. rewrite allChars_app, C.
      cbn. now rewrite W.
Qed.

(** The first piece starts with what was being read. *)
Lemma split_ws_from_first (s : string) :
  forall cur, cur <> "" ->
    exists piece pieces,
      split_ws_from false cur s = piece :: pieces /\ piece <> "".
Proof.
  induction s as [|c s IH]; intros cur C.
  - now exists cur, [].
  - cbn [split_ws_from]. destruct (isWhiteSpace c).
    + now exists cur, (split_ws_from true "" s).
    + apply IH. destruct cur; [congruence|discriminate].
Qed.

(** What [parseName] makes of a text: nothing of a blank one, and of
    any other a first name that is its first piece. *)
Lemma parseName_pieces (nameText : string) :
  (nonempty (trim nameText) = false /\ parseName nameText = mkNameInfo "" "")
  \/ (nonempty (trim nameText) = true
      /\ exists piece pieces,
           split_ws (trim nameText) = piece :: pieces
           /\ piece <> ""
           /\ name_first (parseName nameText) = piece).
Proof.
  unfold parseName. destruct nameText as [|c0 n0]; [now left|].
  cbn [nonempty negb]. set (nameText := String c0 n0).
  destruct (trim_head nameText) as [E|(c & t & E & W)]; rewrite E.
  - now left.
  - right. split; [reflexivity|].
    assert (F : exists piece pieces,
               split_ws (String c t) = piece :: pieces /\ piece <> "").
    { unfold split_ws. cbn [split_ws_from]. rewrite W.
      apply split_ws_from_first. discriminate. }
    destruct F as (piece & pieces & F & N). rewrite F.
    exists piece, pieces. split; [reflexivity|]. split; [exact N|].
    now destruct pieces as [|q [|r pieces]].
Qed.

Lemma parseName_nonblank (nameText : string) :
  nonempty (trim nameText) = true -> name_first (parseName nameText) <> "".
Proof.
  intros H. destruct (parseName_pieces nameText) as [[B _]|(_ & p & ps & _ & N & ->)];
    [congruence|exact N].
Qed.

(** X6.  The first name that [parseName] returns never contains white
    space.  It is non-empty exactly when the text has a character that is
    not white space; for a blank text both names are empty. *)
Theorem parseName_first_name (nameText : string) :
  Props.noSpace (name_first (parseName nameText)) = true
  /\ (nonempty (trim nameText) = true ->
      name_first (parseName nameText) <> "")
  /\ (nonempty (trim nameText) = false ->
      parseName nameText = mkNameInfo "" "").
Proof.
  split; [|split; [apply parseName_nonblank|]].
  - destruct (parseName_pieces nameText) as [[_ ->]|(_ & p & ps & F & _ & ->)];
      [reflexivity|].
    pose proof (split_ws_from_noSpace (trim nameText) false "" eq_refl) as A.
    fold (split_ws (trim nameText)) in A. rewrite F in A.
    now inversion A.
  - intros B. destruct (parseName_pieces nameText) as [[_ E]|[N _]];
      [exact E|congruence].
Qed.

Lemma parseName_first_name_witness :
  name_first (parseName "  Mary   Ann  Lee ") <> "".
Proof.
  apply (proj1 (proj2 (parseName_first_name "  Mary   Ann  Lee "))).
  reflexivity.
Defined.

(** X8.  A contact that the pattern strategy returns has a non-empty
    first name and a non-empty phone number, and its relationship type is
    Other: the basic batch filter never drops it. *)
Theorem parseByPattern_complete_contact (line : string) (contact : Contact) :
  parseByPattern line = Some contact ->
  truthy (first_name contact) = true
  /\ truthy (phone_number contact) = true
  /\ relationship_type contact = str "Other".
Proof.
  unfold parseByPattern.
  set (phone := extractPhone phonePatterns line).
  set (mail := match Regex.first_match emailPattern line with
               | Some m => validateEmail m
               | None => null
               end).
  set (text := if truthy mail then _ else _).
  destruct (nonempty (trim (remove_all (Regex.one_of ",;") text))) eqn:N;
    [|discriminate].
  destruct (truthy phone) eqn:P; [|discriminate].
  cbn [negb orb]. intros H. injection H as <-.
  cbn [first_name phone_number relationship_type].
  split; [|now split].
  rewrite truthy_str. apply nonempty_true.
  apply parseName_nonblank. now apply trim_trim_nonempty.
Qed.

Lemma parseByPattern_complete_contact_witness :
  truthy (str "John") = true /\ truthy (str "+11234567890") = true
  /\ str "Other" = str "Other".
Proof.
  apply (parseByPattern_complete_contact Lines.johnDashes
           {| first_name := str "John"; last_name := str "123-456-7890";
              phone_number := str "+11234567890"; email := null;
              relationship_type := str "Other" |}).
  vm_compute. reflexivity.
Defined.

End Names.

(** ** Further properties: which strategy takes a line *)

Section Strategies.
Import Js contactParser.

Lemma prefix_one (c d : ascii) (s : string) :
  String.prefix (String c "") (String d s) = Ascii.eqb c d.
Proof.
  cbn [String.prefix]. rewrite prefix_empty.
  destruct (ascii_dec c d) as [<-|N].
  - now rewrite Ascii.eqb_refl.
  - symmetry. now apply Ascii.eqb_neq.
Qed.

(** [split] never returns an empty array. *)
Lemma split_from_length (sep s : string) :
  forall skip cur, 1 <= List.length (split_from sep skip cur s).
Proof.
  induction s as [|d s IH]; intros skip cur; [cbn; lia|].
  cbn [split_from]. destruct skip; [|apply IH].
  destruct (String.prefix sep (String d s)); [cbn; lia|apply IH].
Qed.

(** Splitting at a separator of one character: one piece when the
    separator does not occur, two or more when it does. *)
Lemma split_from_one (c : ascii) (s : string) :
  forall cur,
    (includes s (String c "") = false ->
     split_from (String c "") 0 cur s = [cur +++ s])
    /\ (includes s (String c "") = true ->
        2 <= List.length (split_from (String c "") 0 cur s)).
Proof.
  induction s as [|d s IH]; intros cur.
  - split; [intros _|discriminate]. cbn. f_equal.
    clear. induction cur; cbn; congruence.
  - cbn [includes split_from]. rewrite prefix_one.
    destruct (Ascii.eqb c d) eqn:E; cbn [orb String.length Nat.sub].
    + split; [discriminate|]. intros _. cbn [List.length].
      pose proof (split_from_length (String c "") s 0 "").
      lia.
    + destruct (IH (cur +++ String d "")) as [A B]. split.
      * intros H. rewrite (A H). f_equal.
        clear. induction cur; cbn; congruence.
      * exact B.
Qed.

Lemma fromParts_some (parts : list string) :
  2 <= List.length parts -> fromParts parts <> None.
Proof.
  intros H. unfold fromParts.
  destruct (List.length parts <? 2) eqn:L; [|discriminate].
  apply Nat.ltb_lt in L. lia.
Qed.

Lemma separated_none (c : ascii) (line : string) :
  fromParts (List.map trim (split (String c "") line)) = None
  <-> includes line (String c "") = false.
Proof.
  unfold split. destruct (split_from_one c line "") as [A B].
  destruct (includes line (String c "")) eqn:I.
  - split; [|discriminate]. intros H. exfalso.
    apply (fromParts_some (List.map trim (split_from (String c "") 0 "" line))).
    + rewrite length_map. now apply B.
    + exact H.
  - split; [reflexivity|]. intros _. now rewrite (A eq_refl).
Qed.

(** X7.  A line with a comma is always taken by the comma strategy, and
    only such a line is; a line with a tab and no comma is always taken by
    the tab strategy.  The later strategies never see these lines, whatever
    the comma strategy made of them. *)
Theorem parseContactLine_delimiter_decides (line : string) :
  (parseCommaSeparated line = None <-> includes line "," = false)
  /\ (parseTabSeparated line = None <-> includes line tab = false)
  /\ (includes line "," = true ->
      parseContactLine line = parseCommaSeparated line)
  /\ (includes line "," = false -> includes line tab = true ->
      parseContactLine line = parseTabSeparated line).
Proof.
  assert (C : parseCommaSeparated line = None <-> includes line "," = false)
    by apply (separated_none "," line).
  assert (T : parseTabSeparated line = None <-> includes line tab = false)
    by apply (separated_none (ascii_of_nat 9) line).
  split; [exact C|]. split; [exact T|]. split.
  - intros I.
    assert (N : parseCommaSeparated line <> None)
      by (intros E; apply C in E; congruence).
    unfold parseContactLine.
    destruct (parseCommaSeparated line); [reflexivity|congruence].
  - intros I J.
    assert (N : parseTabSeparated line <> None)
      by (intros E; apply T in E; congruence).
    unfold parseContactLine. rewrite (proj2 C I).
    destruct (parseTabSeparated line); [reflexivity|congruence].
Qed.

End Strategies.

(** ** Further properties: the matrix of the scorer *)

Section Levenshtein.
Import Js duplicateDetector Distance.

Lemma editDistance_nil_l (b : string) : editDistance "" b = String.length b.
Proof. destruct b; reflexivity. Qed.

Lemma editDistance_nil_r (a : string) : editDistance a "" = String.length a.
Proof. destruct a; reflexivity. Qed.

Lemma editDistance_cons (x y : ascii) (a b : string) :
  editDistance (String x a) (String y b) =
  if Ascii.eqb x y then editDistance a b
  else S (min3 (editDistance a b) (editDistance (String x a) b)
            (editDistance a (String y b))).
Proof. reflexivity. Qed.

Lemma min3_succ (a b c : nat) : min3 (a + 1) (b + 1) (c + 1) = S (min3 a b c).
Proof. unfold min3. lia. Qed.

(** The inner loop fills a row with the distances of the recurrence. *)
Lemma fillRow_rowFrom (c2 : ascii) (a : string) (rest : string) :
  forall q,
    fillRow c2 rest (editDistance a q) (editDistance (String c2 a) q)
      (rowFrom a q rest)
    = rowFrom (String c2 a) q rest.
Proof.
  induction rest as [|c1 rest IH]; intros q; [reflexivity|].
  cbn [fillRow rowFrom]. rewrite min3_succ, <- editDistance_cons.
  f_equal. apply IH.
Qed.

(** The outer loop fills the matrix row after row. *)
Lemma fillRows_rowsFrom (s1 : string) (rest : string) :
  forall a,
    fillRows rest s1 (S (String.length a))
      (editDistance a "" :: rowFrom a "" s1)
    = rowsFrom s1 a rest.
Proof.
  induction rest as [|c2 rest IH]; intros a; [reflexivity|].
  cbn [fillRows rowsFrom hd tl].
  rewrite (editDistance_nil_r a) at 1.
  change (S (String.length a)) with (String.length (String c2 a)).
  rewrite <- (editDistance_nil_r (String c2 a)).
  rewrite <- (editDistance_nil_r a).
  rewrite fillRow_rowFrom.
  f_equal. rewrite (editDistance_nil_r (String c2 a)). apply IH.
Qed.

Lemma rowFrom_nil (rest : string) :
  forall q, rowFrom "" q rest = List.seq (S (String.length q)) (String.length rest).
Proof.
  induction rest as [|c rest IH]; intros q; [reflexivity|].
  cbn [rowFrom String.length List.seq]. rewrite editDistance_nil_l.
  f_equal. apply IH.
Qed.

Lemma levenshteinMatrix_rows (s1 s2 : string) :
  levenshteinMatrix s1 s2 =
  (editDistance "" "" :: rowFrom "" "" s1) :: rowsFrom s1 "" s2.
Proof.
  unfold levenshteinMatrix. cbv zeta.
  assert (R : List.seq 0 (S (String.length s1))
              = editDistance "" "" :: rowFrom "" "" s1)
    by (rewrite rowFrom_nil; reflexivity).
  rewrite R. f_equal. apply (fillRows_rowsFrom s1 s2 "").
Qed.

Lemma nth_rowFrom (a : string) (rest : string) :
  forall q,
    nth (String.length rest) (editDistance a q :: rowFrom a q rest) 0
    = editDistance a (reverseOnto rest q).
Proof.
  induction rest as [|c rest IH]; intros q; [reflexivity|].
  cbn [String.length nth rowFrom reverseOnto]. apply IH.
Qed.

Lemma nth_rowsFrom (s1 : string) (rest : string) :
  forall a,
    nth (String.length rest)
      ((editDistance a "" :: rowFrom a "" s1) :: rowsFrom s1 a rest) []
    = editDistance (reverseOnto rest a) "" :: rowFrom (reverseOnto rest a) "" s1.
Proof.
  induction rest as [|c rest IH]; intros a; [reflexivity|].
  cbn [String.length nth rowsFrom reverseOnto]. apply IH.
Qed.

Lemma editDistance_sym (a : string) :
  forall b, editDistance a b = editDistance b a.
Proof.
  induction a as [|x a IHa]; intros b.
  - now rewrite editDistance_nil_l, editDistance_nil_r.
  - induction b as [|y b IHb].
    + now rewrite editDistance_nil_l, editDistance_nil_r.
    + rewrite !editDistance_cons, Ascii.eqb_sym.
      rewrite (IHa b), (IHa (String y b)), IHb.
      destruct (Ascii.eqb y x); [reflexivity|].
      f_equal. unfold min3. lia.
Qed.

Lemma editDistance_upper (a : string) :
  forall b, editDistance a b <= Nat.max (String.length a) (String.length b).
Proof.
  induction a as [|x a IHa]; intros b.
  - rewrite editDistance_nil_l. lia.
  - destruct b as [|y b].
    + rewrite editDistance_nil_r. lia.
    + rewrite editDistance_cons. specialize (IHa b).
      cbn [String.length]. unfold min3.
      destruct (Ascii.eqb x y); lia.
Qed.

Lemma editDistance_lower (a : string) :
  forall b,
    String.length a - String.length b <= editDistance a b
    /\ String.length b - String.length a <= editDistance a b.
Proof.
  induction a as [|x a IHa]; intros b.
  - rewrite editDistance_nil_l. cbn [String.length]. lia.
  - induction b as [|y b IHb].
    + rewrite editDistance_nil_r. cbn [String.length]. lia.
    + rewrite editDistance_cons.
      pose proof (IHa b) as D. pose proof (IHa (String y b)) as U.
      cbn [String.length] in *. unfold min3.
      destruct (Ascii.eqb x y); lia.
Qed.

Lemma editDistance_zero (a : string) :
  forall b, editDistance a b = 0 <-> a = b.
Proof.
  induction a as [|x a IHa]; intros b.
  - rewrite editDistance_nil_l. destruct b; cbn; split; congruence.
  - destruct b as [|y b].
    + rewrite editDistance_nil_r. cbn. split; congruence.
    + rewrite editDistance_cons. destruct (Ascii.eqb x y) eqn:E.
      * apply Ascii.eqb_eq in E. subst y. rewrite IHa. split; congruence.
      * apply Ascii.eqb_neq in E. split; [discriminate|congruence].
Qed.

Lemma length_reverseOnto (s : string) :
  forall onto,
    String.length (reverseOnto s onto) = String.length s + String.length onto.
Proof.
  induction s as [|c s IH]; intros onto; [reflexivity|].
  cbn [reverseOnto String.length]. rewrite IH. cbn [String.length]. lia.
Qed.

Lemma reverseOnto_inj (s : string) :
  forall t onto onto',
    String.length s = String.length t ->
    reverseOnto s onto = reverseOnto t onto' -> s = t /\ onto = onto'.
Proof.
  induction s as [|c s IH]; intros [|d t] onto onto' L H;
    try discriminate; [now split|].
  cbn [reverseOnto] in H. injection L as L.
  apply IH in H as [-> H]; [|exact L]. injection H as -> ->. now split.
Qed.

Lemma reverse_inj (s t : string) : reverse s = reverse t -> s = t.
Proof.
  intros H. unfold reverse in H.
  assert (L : String.length s = String.length t).
  { apply (f_equal String.length) in H.
    rewrite !length_reverseOnto in H. cbn in H. lia. }
  now apply reverseOnto_inj in H.
Qed.

Lemma distanceOf_recurrence (s1 s2 : string) :
  nth (String.length s1) (nth (String.length s2) (levenshteinMatrix s1 s2) []) 0
  = editDistance (reverseOnto s2 "") (reverseOnto s1 "").
Proof. now rewrite levenshteinMatrix_rows, nth_rowsFrom, nth_rowFrom. Qed.

Lemma distanceOf_sym (s1 s2 : string) : distanceOf s1 s2 = distanceOf s2 s1.
Proof. unfold distanceOf. rewrite !distanceOf_recurrence. apply editDistance_sym. Qed.

(** X9.  The cell of the matrix that [calculateSimilarity] reads is the
    Levenshtein distance of the two strings, read from their ends: the
    loops compute the recurrence of the edit distance, cell by cell. *)
Theorem distanceOf_editDistance (s1 s2 : string) :
  distanceOf s1 s2 = editDistance (reverse s2) (reverse s1).
Proof.
  unfold distanceOf, reverse.
  rewrite levenshteinMatrix_rows, nth_rowsFrom, nth_rowFrom. reflexivity.
Qed.

Lemma number_succ (n : nat) :
  Uint63.of_Z (Z.of_nat (S n)) = (Uint63.of_Z (Z.of_nat n) + 1)%uint63.
Proof.
  apply Uint63.to_Z_inj.
  rewrite Uint63.add_spec, !Uint63.of_Z_spec, Nat2Z.inj_succ.
  change (Uint63.to_Z 1) with 1%Z. unfold Z.succ.
  now rewrite Zplus_mod_idemp_l.
Qed.

Lemma columnWithin_each (maxLength : float) (count : nat) :
  forall first,
    columnWithin count (Uint63.of_Z (Z.of_nat first)) maxLength = true ->
    forall d, first <= d < first + count ->
      within (number d) maxLength = true.
Proof.
  induction count as [|count IH]; intros first H d B; [lia|].
  cbn [columnWithin] in H. apply andb_true_iff in H as [H0 H].
  destruct (Nat.eq_dec d first) as [->|N]; [exact H0|].
  rewrite <- number_succ in H. apply (IH (S first) H). lia.
Qed.

Lemma rowsWithin_each (count : nat) :
  forall k,
    rowsWithin count k (Uint63.of_Z (Z.of_nat k)) = true ->
    forall m d, k <= m < k + count -> 1 <= d <= m ->
      within (number d) (number m) = true.
Proof.
  induction count as [|count IH]; intros k H m d B D; [lia|].
  cbn [rowsWithin] in H. apply andb_true_iff in H as [H0 H].
  destruct (Nat.eq_dec m k) as [->|N].
  - apply (columnWithin_each _ k 1 H0). lia.
  - rewrite <- number_succ in H. apply (IH (S k) H); lia.
Qed.

(** Every quotient of a distance by a length up to the limit, computed in
    binary64, gives a score that is at least 0 and below 1. *)
Lemma within_limit (d m : nat) :
  1 <= d <= m -> m <= lengthLimit -> within (number d) (number m) = true.
Proof.
  intros D L.
  assert (T : rowsWithin lengthLimit 1 (Uint63.of_Z (Z.of_nat 1)) = true)
    by (vm_compute; reflexivity).
  apply (rowsWithin_each lengthLimit 1 T); [|exact D].
  unfold lengthLimit in *. lia.
Qed.

Lemma length_toLowerCase (s : string) :
  String.length (toLowerCase s) = String.length s.
Proof.
  unfold toLowerCase. induction s as [|c s IH]; [reflexivity|].
  cbn [map String.length]. now rewrite IH.
Qed.

Lemma length_trimStart (s : string) :
  String.length (trimStart s) <= String.length s.
Proof.
  induction s as [|c s IH]; [reflexivity|].
  cbn [trimStart]. destruct (isWhiteSpace c); cbn [String.length]; lia.
Qed.

Lemma length_trimEnd (s : string) :
  String.length (trimEnd s) <= String.length s.
Proof.
  induction s as [|c s IH]; [reflexivity|].
  cbn [trimEnd]. destruct (trimEnd s) as [|d t].
  - destruct (isWhiteSpace c); cbn [String.length]; lia.
  - cbn [String.length] in *. lia.
Qed.

Lemma length_trim (s : string) : String.length (trim s) <= String.length s.
Proof.
  unfold trim. pose proof (length_trimEnd (trimStart s)).
  pose proof (length_trimStart s). lia.
Qed.

Lemma distanceOf_bounds (s1 s2 : string) :
  distanceOf s1 s2 <= Nat.max (String.length s1) (String.length s2)
  /\ String.length s1 - String.length s2 <= distanceOf s1 s2
  /\ String.length s2 - String.length s1 <= distanceOf s1 s2
  /\ (distanceOf s1 s2 = 0 <-> s1 = s2).
Proof.
  unfold distanceOf. rewrite distanceOf_recurrence.
  fold (reverse s1) (reverse s2).
  pose proof (editDistance_upper (reverse s2) (reverse s1)) as U.
  pose proof (editDistance_lower (reverse s2) (reverse s1)) as [L1 L2].
  unfold reverse in U, L1, L2. rewrite !length_reverseOnto in U, L1, L2.
  cbn [String.length] in U, L1, L2. fold (reverse s1) (reverse s2) in *.
  split; [lia|]. split; [lia|].
  split; [lia|]. rewrite editDistance_zero. split.
  - intros H. symmetry. now apply reverse_inj.
  - now intros ->.
Qed.

(** X10.  The distance that the scorer computes is the same in both
    directions, lies between the difference of the two lengths and the
    longer of them, and is zero for equal strings only.  So the score
    that [calculateSimilarity] returns for two strings of up to 4000
    characters, [1 - distance / maxLength] in binary64, is at least 0 and
    at most 1, and it is 1 exactly when the two strings are non-empty and
    equal once put in lower case and trimmed. *)
Theorem distanceOf_metric (s1 s2 : string) :
  distanceOf s1 s2 = distanceOf s2 s1
  /\ distanceOf s1 s2 <= Nat.max (String.length s1) (String.length s2)
  /\ String.length s1 - String.length s2 <= distanceOf s1 s2
  /\ String.length s2 - String.length s1 <= distanceOf s1 s2
  /\ (distanceOf s1 s2 = 0 <-> s1 = s2)
  /\ (String.length s1 <= lengthLimit -> String.length s2 <= lengthLimit ->
      (0 <=? calculateSimilarity (str s1) (str s2))%float = true
      /\ (calculateSimilarity (str s1) (str s2) <=? 1)%float = true
      /\ (calculateSimilarity (str s1) (str s2) = 1%float
          <-> s1 <> "" /\ s2 <> ""
              /\ trim (toLowerCase s1) = trim (toLowerCase s2))).
Proof.
  split; [apply distanceOf_sym|].
  destruct (distanceOf_bounds s1 s2) as (U & L1 & L2 & Z).
  do 4 (split; [assumption|]). intros B1 B2.
  unfold calculateSimilarity. rewrite !truthy_str. cbn [or_empty].
  assert (O : (0%float = 1%float) -> False).
  { intros H. apply (f_equal (fun x => (x <? 0.5)%float)) in H.
    vm_compute in H. discriminate. }
  destruct (nonempty s1) eqn:N1; cbn [negb orb].
  2:{ split; [reflexivity|]. split; [reflexivity|]. split.
      - intros H. now apply O in H.
      - intros (N & _). apply nonempty_true in N. congruence. }
  destruct (nonempty s2) eqn:N2; cbn [negb orb].
  2:{ split; [reflexivity|]. split; [reflexivity|]. split.
      - intros H. now apply O in H.
      - intros (_ & N & _). apply nonempty_true in N. congruence. }
  apply nonempty_true in N1, N2.
  set (t1 := trim (toLowerCase s1)). set (t2 := trim (toLowerCase s2)).
  cbv zeta.
  destruct (String.eqb t1 t2) eqn:E.
  { apply String.eqb_eq in E. split; [reflexivity|]. split; [reflexivity|].
    split; [now intros _|reflexivity]. }
  apply String.eqb_neq in E.
  change (nth (String.length t1)
            (nth (String.length t2) (levenshteinMatrix t1 t2) []) 0)
    with (distanceOf t1 t2).
  destruct (distanceOf_bounds t1 t2) as (Ut & _ & _ & Zt).
  assert (T1 : String.length t1 <= String.length s1).
  { subst t1. pose proof (length_trim (toLowerCase s1)) as T.
    now rewrite length_toLowerCase in T. }
  assert (T2 : String.length t2 <= String.length s2).
  { subst t2. pose proof (length_trim (toLowerCase s2)) as T.
    now rewrite length_toLowerCase in T. }
  assert (W : within (number (distanceOf t1 t2))
                (number (Nat.max (String.length t1) (String.length t2)))
              = true).
  { apply within_limit.
    - split; [|exact Ut].
      assert (D : distanceOf t1 t2 <> 0)
        by (intros D; apply Zt in D; contradiction).
      lia.
    - lia. }
  unfold within in W. cbv zeta in W.
  apply andb_true_iff in W as [W W3]. apply andb_true_iff in W as [W1 W2].
  split; [exact W1|]. split; [exact W2|]. split.
  - intros H. rewrite H in W3. vm_compute in W3. discriminate.
  - intros (_ & _ & H). contradiction.
Qed.

(** X10 on two names of seven and eight characters. *)
Lemma distanceOf_metric_witness :
  distanceOf "ann lee" "anne lee" = 1
  /\ (0 <=? calculateSimilarity (str "Ann Lee") (str "Anne Lee"))%float = true
  /\ (calculateSimilarity (str "Ann Lee") (str "Anne Lee") <=? 1)%float = true
  /\ calculateSimilarity (str "Ann Lee") (str "Anne Lee") <> 1%float.
Proof.
  split; [reflexivity|].
  destruct (distanceOf_metric "Ann Lee" "Anne Lee")
    as (_ & _ & _ & _ & _ & S).
  destruct S as (S0 & S1 & S2).
  - apply Nat.leb_le. reflexivity.
  - apply Nat.leb_le. reflexivity.
  - split; [exact S0|]. split; [exact S1|].
    intros H. apply (proj1 S2) in H as (_ & _ & H). discriminate.
Defined.

End Levenshtein.

(** ** Further properties: the comparisons do not depend on the order *)

Section Symmetry.
Import Js duplicateDetector Distance.

Lemma calculateSimilarity_sym (a b : value) :
  calculateSimilarity a b = calculateSimilarity b a.
Proof.
  unfold calculateSimilarity. rewrite orb_comm.
  destruct (negb (truthy b) || negb (truthy a)); [reflexivity|].
  rewrite String.eqb_sym.
  destruct (String.eqb _ _); [reflexivity|].
  cbv zeta.
  change (nth (String.length ?x) (nth (String.length ?y) (levenshteinMatrix ?x ?y) []) 0)
    with (distanceOf x y).
  now rewrite distanceOf_sym, Nat.max_comm.
Qed.

Lemma strict_eq_sym (a b : value) : strict_eq a b = strict_eq b a.
Proof. destruct a, b; try reflexivity. cbn. apply String.eqb_sym. Qed.

(** X11.  The similarity of two strings and the three comparisons built
    on it give the same answer whichever contact is put first. *)
Theorem similarity_symmetric (a b : value) :
  calculateSimilarity a b = calculateSimilarity b a
  /\ arePhoneNumbersSimilar a b = arePhoneNumbersSimilar b a
  /\ areNamesSimilar a b = areNamesSimilar b a
  /\ areEmailsSimilar a b = areEmailsSimilar b a.
Proof.
  split; [apply calculateSimilarity_sym|]. split; [|split].
  - unfold arePhoneNumbersSimilar. rewrite orb_comm.
    destruct (negb (truthy b) || negb (truthy a)); [reflexivity|].
    rewrite String.eqb_sym. destruct (String.eqb _ _); [reflexivity|].
    rewrite orb_comm. destruct (_ || _); [reflexivity|].
    now rewrite calculateSimilarity_sym.
  - unfold areNamesSimilar. rewrite orb_comm.
    destruct (negb (truthy b) || negb (truthy a)); [reflexivity|].
    now rewrite calculateSimilarity_sym.
  - unfold areEmailsSimilar. rewrite orb_comm.
    destruct (negb (truthy b) || negb (truthy a)); [reflexivity|].
    rewrite String.eqb_sym. destruct (String.eqb _ _); [reflexivity|].
    rewrite strict_eq_sym.
    rewrite (andb_comm (truthy (at_index (split "@" (or_empty a)) 1))).
    destruct (_ && _ && _); [|reflexivity].
    now rewrite calculateSimilarity_sym.
Qed.

End Symmetry.

(** ** Further properties: what the detector reports, and in which order *)

Section Reports.
Import Js duplicateDetector.

Lemma fold_left_consider_pushed (contact : contactParser.Contact)
  (found : list Row) (duplicates : list DuplicateMatch) :
  fold_left (consider contact) found duplicates
  = duplicates ++ Props.pushed contact found.
Proof.
  revert duplicates. induction found as [|row found IH]; intros duplicates.
  - cbn. now rewrite app_nil_r.
  - cbn [fold_left]. rewrite IH, consider_matchOf. unfold Props.pushed.
    cbn [filter].
    destruct (0.4 <=? fst (scoreOf contact row))%float.
    + cbn [List.map]. now rewrite <- app_assoc.
    + reflexivity.
Qed.

(** The reasons are pushed under the guards under which the score grows. *)
Lemma scoreOf_reasons (contact : contactParser.Contact) (existing : Row) :
  snd (scoreOf contact existing) =
  Props.reasonsOf
    (arePhoneNumbersSimilar (contactParser.phone_number contact)
       (phone_number existing))
    (areEmailsSimilar (contactParser.email contact) (email existing))
    (areNamesSimilar
       (str (fullNameOf (first_name existing) (last_name existing)))
       (str (fullNameOf (contactParser.first_name contact)
               (contactParser.last_name contact)))).
Proof.
  unfold scoreOf.
  set (phone := arePhoneNumbersSimilar _ _).
  set (mail := areEmailsSimilar _ _).
  set (name := areNamesSimilar _ _).
  assert (P : truthy (contactParser.phone_number contact)
              && truthy (phone_number existing) = false -> phone = false).
  { subst phone. unfold arePhoneNumbersSimilar.
    destruct (truthy (contactParser.phone_number contact)),
             (truthy (phone_number existing)); cbn; congruence. }
  assert (M : truthy (contactParser.email contact)
              && truthy (email existing) = false -> mail = false).
  { subst mail. unfold areEmailsSimilar.
    destruct (truthy (contactParser.email contact)),
             (truthy (email existing)); cbn; congruence. }
  assert (N : nonempty (fullNameOf (first_name existing) (last_name existing))
              && nonempty (fullNameOf (contactParser.first_name contact)
                             (contactParser.last_name contact)) = false ->
              name = false).
  { subst name. unfold areNamesSimilar. rewrite !truthy_str.
    destruct (nonempty (fullNameOf (first_name existing) (last_name existing))),
             (nonempty (fullNameOf (contactParser.first_name contact)
                          (contactParser.last_name contact)));
      cbn; congruence. }
  destruct (truthy (contactParser.phone_number contact)
            && truthy (phone_number existing));
    [|rewrite (P eq_refl)];
    (destruct (truthy (contactParser.email contact) && truthy (email existing));
     [|rewrite (M eq_refl)]);
    (destruct (nonempty (fullNameOf (first_name existing) (last_name existing))
               && nonempty (fullNameOf (contactParser.first_name contact)
                              (contactParser.last_name contact)));
     [|rewrite (N eq_refl)]);
    clear P M N;
    try destruct phone; try destruct mail; try destruct name; reflexivity.
Qed.

(** A name alone does not reach the threshold, and only phone and email
    together reach the one of an exact match. *)
Lemma weightedScore_flags (phone mail name : bool) :
  (0.4 <=? Spec.weightedScore phone mail name)%float = phone || mail
  /\ (0.8 <=? Spec.weightedScore phone mail name)%float = phone && mail.
Proof. destruct phone, mail, name; split; reflexivity. Qed.

Lemma pushed_In (contact : contactParser.Contact) (found : list Row)
  (d : DuplicateMatch) :
  In d (Props.pushed contact found) ->
  exists existing,
    In existing found
    /\ (0.4 <=? fst (scoreOf contact existing))%float = true
    /\ d = matchOf contact existing.
Proof.
  unfold Props.pushed. intros H. apply in_map_iff in H as (e & <- & H).
  apply filter_In in H as [I T]. now exists e.
Qed.

(** X13.  Every match that [detectDuplicates] reports has a similar
    phone number or a similar email: similar names alone are never
    enough.  The match is exact when both are similar and only then, and
    its reasons are those of the comparisons that succeeded, in the order
    phone, email, name. *)
Theorem detectDuplicates_match_flags (DB : Type)
  (executeQuery : string -> list param -> M DB QueryResult)
  (contact : contactParser.Contact) (excludeId : option nat) (db db' : DB)
  (result : DuplicateResult) (d : DuplicateMatch) :
  detectDuplicates DB executeQuery contact excludeId db = (inr result, db') ->
  In d (duplicates result) ->
  let existing := existingContact d in
  let phone :=
    arePhoneNumbersSimilar (contactParser.phone_number contact)
      (phone_number existing) in
  let mail :=
    areEmailsSimilar (contactParser.email contact) (email existing) in
  let name :=
    areNamesSimilar
      (str (fullNameOf (first_name existing) (last_name existing)))
      (str (fullNameOf (contactParser.first_name contact)
              (contactParser.last_name contact))) in
  phone || mail = true
  /\ isExactMatch d = phone && mail
  /\ matchReasons d = Props.reasonsOf phone mail name
  /\ similarityScore d = Spec.weightedScore phone mail name.
Proof.
  intros H I. unfold detectDuplicates, bind, try_catch, ret in H.
  destruct (executeQuery _ _ db) as [[error|answer] db1].
  - injection H as <- _. destruct I.
  - injection H as <- _. cbn [duplicates] in I.
    apply (proj1 (sortByScore_In _ _)) in I.
    rewrite fold_left_consider_pushed in I. cbn [app] in I.
    apply pushed_In in I as (e & _ & T & ->).
    cbn [existingContact matchOf isExactMatch matchReasons similarityScore].
    rewrite scoreOf_weighted in *. rewrite scoreOf_reasons.
    rewrite (proj1 (weightedScore_flags _ _ _)) in T.
    rewrite (proj2 (weightedScore_flags _ _ _)).
    now repeat split.
Qed.

(** X12.  A candidate with neither a phone number nor an email never has
    duplicates, whatever the store holds or answers: no name is similar
    enough on its own. *)
Theorem detectDuplicates_name_only (DB : Type)
  (executeQuery : string -> list param -> M DB QueryResult)
  (contact : contactParser.Contact) (excludeId : option nat) (db : DB) :
  truthy (contactParser.phone_number contact) = false ->
  truthy (contactParser.email contact) = false ->
  fst (detectDuplicates DB executeQuery contact excludeId db)
  = inr {| hasDuplicates := false; duplicates := []; totalDuplicates := 0 |}.
Proof.
  intros P E. unfold detectDuplicates, bind, try_catch, ret.
  destruct (executeQuery _ _ db) as [[error|answer] db1]; [reflexivity|].
  rewrite fold_left_consider_pushed. cbn [app].
  assert (N : Props.pushed contact (rows answer) = []).
  { unfold Props.pushed.
    assert (F : forall l, filter (fun existing =>
                  (0.4 <=? fst (scoreOf contact existing))%float) l = []).
    { induction l as [|e l IH]; [reflexivity|]. cbn [filter].
      rewrite scoreOf_weighted, (proj1 (weightedScore_flags _ _ _)).
      unfold arePhoneNumbersSimilar, areEmailsSimilar. rewrite P, E.
      exact IH. }
    now rewrite F. }
  rewrite N. reflexivity.
Qed.

End Reports.

Section ReportRuns.
Import Js duplicateDetector Stores.

(** X13 on the store in memory: the first match of the candidate. *)
Lemma detectDuplicates_match_flags_witness :
  isExactMatch (matchOf candidate annie) = true
  /\ matchReasons (matchOf candidate annie)
     = ["Phone number match"; "Email match"].
Proof.
  destruct (detectDuplicates_match_flags Table inMemory candidate None
              book book MoreStores.candidateReport (matchOf candidate annie))
    as (_ & X & R & _).
  - vm_compute. reflexivity.
  - left. reflexivity.
  - split; [rewrite X|rewrite R]; vm_compute; reflexivity.
Defined.

(** X12 on the store in memory: Ann Lee is in the book, and a candidate
    who has her name and nothing else is not found there. *)
Lemma detectDuplicates_name_only_witness :
  fst (detectDuplicates Table inMemory MoreStores.namesake None book)
  = inr {| hasDuplicates := false; duplicates := []; totalDuplicates := 0 |}.
Proof.
  apply (detectDuplicates_name_only Table inMemory MoreStores.namesake
           None book); reflexivity.
Defined.

End ReportRuns.

(** ** Further properties: the order of the matches *)

Section Order.
Import Js duplicateDetector.

(** On the scores of the detector the comparisons of binary64 numbers
    are those of the tenths. *)
Lemma scored_compare (x y : DuplicateMatch) :
  Props.scored x -> Props.scored y ->
  (0 <? similarityScore x - similarityScore y)%float
  = (Props.rank y <? Props.rank x)
  /\ (similarityScore y <=? similarityScore x)%float
     = (Props.rank y <=? Props.rank x).
Proof.
  intros (p & m & n & X) (p' & m' & n' & Y). unfold Props.rank.
  rewrite X, Y.
  destruct p, m, n, p', m', n'; split; reflexivity.
Qed.

Lemma scored_rank (x : DuplicateMatch) (phone mail name : bool) :
  Props.scored x ->
  PrimFloat.eqb (similarityScore x) (Spec.weightedScore phone mail name)
  = (Props.rank x =? Spec.tenths phone mail name).
Proof.
  intros (p & m & n & X). unfold Props.rank. rewrite X.
  destruct p, m, n, phone, mail, name; reflexivity.
Qed.

Lemma filter_none {A : Type} (f : A -> bool) (l : list A) :
  (forall z, In z l -> f z = false) -> filter f l = [].
Proof.
  induction l as [|a l IH]; intros H; [reflexivity|].
  cbn [filter]. rewrite (H a (or_introl eq_refl)).
  apply IH. intros z Z. apply H. now right.
Qed.

Lemma insertByScore_byRank (x : DuplicateMatch) (l : list DuplicateMatch) :
  Props.scored x -> Forall Props.scored l -> Props.byRank l ->
  Props.byRank (insertByScore x l).
Proof.
  intros X. induction l as [|y l IH]; intros F S.
  - cbn. constructor; constructor.
  - inversion F as [|? ? Y Fl]; subst.
    apply StronglySorted_inv in S as [Sl Ly].
    cbn [insertByScore].
    rewrite (proj1 (scored_compare x y X Y)).
    destruct (Props.rank y <? Props.rank x) eqn:C.
    + apply Nat.ltb_lt in C. constructor.
      * now constructor.
      * constructor; [lia|].
        eapply Forall_impl; [|exact Ly]. cbn. intros; lia.
    + apply Nat.ltb_ge in C. constructor; [now apply IH|].
      apply Forall_forall. intros z Z.
      apply insertByScore_In in Z as [->|Z]; [exact C|].
      revert z Z. now apply Forall_forall.
Qed.

Lemma insertByScore_ranked (k : nat) (x : DuplicateMatch)
  (l : list DuplicateMatch) :
  Props.scored x -> Forall Props.scored l -> Props.byRank l ->
  filter (fun d => Props.rank d =? k) (insertByScore x l)
  = filter (fun d => Props.rank d =? k) l
    ++ (if Props.rank x =? k then [x] else []).
Proof.
  intros X. induction l as [|y l IH]; intros F S.
  - cbn. now destruct (Props.rank x =? k).
  - inversion F as [|? ? Y Fl]; subst.
    apply StronglySorted_inv in S as [Sl Ly].
    cbn [insertByScore].
    rewrite (proj1 (scored_compare x y X Y)).
    destruct (Props.rank y <? Props.rank x) eqn:C.
    + apply Nat.ltb_lt in C. cbn [filter].
      destruct (Props.rank x =? k) eqn:K; [|now rewrite app_nil_r].
      apply Nat.eqb_eq in K.
      assert (Ey : (Props.rank y =? k) = false) by (apply Nat.eqb_neq; lia).
      rewrite Ey.
      assert (El : filter (fun d => Props.rank d =? k) l = []).
      { apply filter_none. intros z Z. apply Nat.eqb_neq.
        pose proof (proj1 (Forall_forall _ _) Ly z Z). cbn in *. lia. }
      now rewrite El.
    + cbn [filter]. rewrite (IH Fl Sl).
      destruct (Props.rank y =? k); reflexivity.
Qed.

Lemma fold_left_insertByScore_stable (l acc : list DuplicateMatch) :
  Forall Props.scored acc -> Forall Props.scored l -> Props.byRank acc ->
  let sorted := fold_left (fun sorted x => insertByScore x sorted) l acc in
  Forall Props.scored sorted
  /\ Props.byRank sorted
  /\ List.length sorted = List.length acc + List.length l
  /\ forall k,
       filter (fun d => Props.rank d =? k) sorted
       = filter (fun d => Props.rank d =? k) acc
         ++ filter (fun d => Props.rank d =? k) l.
Proof.
  revert acc. induction l as [|x l IH]; intros acc A L Sa; cbv zeta.
  - cbn. repeat split; [exact A|exact Sa|lia|].
    intros k. now rewrite app_nil_r.
  - inversion L as [|? ? X Ll]; subst. cbn [fold_left].
    assert (A' : Forall Props.scored (insertByScore x acc)).
    { apply Forall_forall. intros z Z.
      apply insertByScore_In in Z as [->|Z]; [exact X|].
      revert z Z. now apply Forall_forall. }
    destruct (IH (insertByScore x acc) A' Ll (insertByScore_byRank x acc X A Sa))
      as (F & B & N & K).
    split; [exact F|]. split; [exact B|]. split.
    + rewrite N. cbn [List.length].
      assert (Li : List.length (insertByScore x acc) = S (List.length acc)).
      { clear. induction acc as [|y acc IHa]; [reflexivity|].
        cbn [insertByScore].
        destruct (0 <? similarityScore x - similarityScore y)%float;
          cbn [List.length]; [reflexivity|now rewrite IHa]. }
      lia.
    + intros k. rewrite K, (insertByScore_ranked k x acc X A Sa).
      cbn [filter]. rewrite <- app_assoc.
      now destruct (Props.rank x =? k).
Qed.

Lemma pushed_scored (contact : contactParser.Contact) (found : list Row) :
  Forall Props.scored (Props.pushed contact found).
Proof.
  apply Forall_forall. intros d D. apply pushed_In in D as (e & _ & _ & ->).
  unfold Props.scored. cbn [similarityScore matchOf].
  rewrite scoreOf_weighted. now eexists _, _, _.
Qed.

Lemma byRank_descending (l : list DuplicateMatch) :
  Forall Props.scored l -> Props.byRank l -> Props.descending l.
Proof.
  unfold Props.descending. intros F B.
  induction B as [|d l Sl IH L]; [constructor|].
  apply Forall_cons_iff in F as [Fd Fl].
  constructor; [now apply IH|].
  apply Forall_forall. intros z Z.
  rewrite (proj2 (scored_compare d z Fd (proj1 (Forall_forall _ _) Fl z Z))).
  apply Nat.leb_le. revert z Z. now apply Forall_forall.
Qed.

(** X14.  The matches are returned with the highest score first: no match
    has a higher score than one before it.  The sort is stable, so the
    matches of one score keep the order in which the store returned
    their contacts, and no match is lost or added by it. *)
Theorem detectDuplicates_sorted (DB : Type)
  (executeQuery : string -> list param -> M DB QueryResult)
  (contact : contactParser.Contact) (excludeId : option nat) (db db' : DB)
  (result : QueryResult) :
  executeQuery (query (candidateQuery contact excludeId))
    (params (candidateQuery contact excludeId)) db = (inr result, db') ->
  exists found,
    detectDuplicates DB executeQuery contact excludeId db =
    (inr {| hasDuplicates := 0 <? List.length found;
            duplicates := found;
            totalDuplicates := List.length found |}, db')
    /\ Props.descending found
    /\ List.length found
       = List.length (Props.pushed contact (rows result))
    /\ forall phone mail name,
         Props.withScore (Spec.weightedScore phone mail name) found
         = Props.withScore (Spec.weightedScore phone mail name)
             (Props.pushed contact (rows result)).
Proof.
  intros H. apply detectDuplicates_returns in H. cbv zeta in H.
  rewrite fold_left_consider_pushed in H. cbn [app] in H.
  set (unsorted := Props.pushed contact (rows result)) in *.
  exists (sortByScore unsorted). split; [exact H|].
  destruct (fold_left_insertByScore_stable unsorted []
              (Forall_nil _) (pushed_scored contact (rows result))
              (SSorted_nil _)) as (F & B & N & K).
  fold (sortByScore unsorted) in F, B, N, K.
  split; [|split; [exact N|]].
  - now apply byRank_descending.
  - intros phone mail name. unfold Props.withScore.
    rewrite (filter_ext_in _
               (fun d => Props.rank d =? Spec.tenths phone mail name)
               (sortByScore unsorted)).
    + rewrite K. cbn [filter app]. apply filter_ext_in.
      intros d D. symmetry. apply scored_rank.
      revert d D. apply Forall_forall, pushed_scored.
    + intros d D. apply scored_rank. revert d D. now apply Forall_forall.
Qed.

End Order.

Section OrderRuns.
Import Js duplicateDetector Stores.

(** X14 on the store in memory. *)
Lemma detectDuplicates_sorted_witness :
  exists found,
    detectDuplicates Table inMemory candidate None book =
    (inr {| hasDuplicates := 0 <? List.length found;
            duplicates := found;
            totalDuplicates := List.length found |}, book)
    /\ Props.descending found.
Proof.
  destruct (detectDuplicates_sorted Table inMemory candidate None book book
              (mkQueryResult book) eq_refl) as (found & E & D & _).
  exists found. now split.
Defined.

End OrderRuns.

(** ** Further properties: the query of the detector *)

Section Query.
Import Js duplicateDetector.

Local Abbreviation dollars := (Props.occurrences "$").
Local Abbreviation collecting := Props.collecting.

Lemma occurrences_app (c : ascii) (s t : string) :
  Props.occurrences c (s +++ t)
  = Props.occurrences c s + Props.occurrences c t.
Proof.
  induction s as [|d s IH]; [reflexivity|].
  cbn [String.append Props.occurrences]. rewrite IH. lia.
Qed.

Lemma dollars_string_of_uint (d : Decimal.uint) :
  dollars (NilEmpty.string_of_uint d) = 0.
Proof. induction d; cbn; auto. Qed.

Lemma dollars_dollar (n : nat) : dollars (dollar n) = 1.
Proof.
  unfold dollar, number_to_string. rewrite occurrences_app.
  now rewrite dollars_string_of_uint.
Qed.

Lemma dollars_join (conditions : list string) :
  dollars (join " OR " conditions) = list_sum (List.map dollars conditions).
Proof.
  induction conditions as [|c [|c' rest] IH]; [reflexivity|cbn; lia|].
  change (join " OR " (c :: c' :: rest))
    with (c +++ " OR " +++ join " OR " (c' :: rest)).
  rewrite !occurrences_app, IH. cbn [List.map list_sum]. cbn. lia.
Qed.

Lemma addExclusion_collecting (excludeId : option nat) (b : Builder) :
  collecting b -> collecting (addExclusion excludeId b).
Proof.
  intros [C N]. unfold addExclusion. destruct excludeId as [[|n]|];
    try (now split).
  split; cbn [query params paramCount conditions].
  - rewrite !occurrences_app, dollars_dollar, length_app. cbn. lia.
  - rewrite length_app. cbn. lia.
Qed.

Lemma addPhone_collecting (contact : contactParser.Contact) (b : Builder) :
  collecting b -> collecting (addPhone contact b).
Proof.
  intros [C N]. unfold addPhone.
  destruct (truthy (contactParser.phone_number contact)); [|now split].
  split; cbn [query params paramCount conditions].
  - rewrite map_app, list_sum_app, length_app. cbn [List.map list_sum].
    rewrite !occurrences_app, !dollars_dollar. cbn. lia.
  - rewrite length_app. cbn. lia.
Qed.

Lemma addEmail_collecting (contact : contactParser.Contact) (b : Builder) :
  collecting b -> collecting (addEmail contact b).
Proof.
  intros [C N]. unfold addEmail.
  destruct (truthy (contactParser.email contact)); [|now split].
  split; cbn [query params paramCount conditions].
  - rewrite map_app, list_sum_app, length_app. cbn [List.map list_sum].
    rewrite !occurrences_app, !dollars_dollar. cbn. lia.
  - rewrite length_app. cbn. lia.
Qed.

Lemma addName_collecting (contact : contactParser.Contact) (b : Builder) :
  collecting b -> collecting (addName contact b).
Proof.
  intros [C N]. unfold addName.
  destruct (_ || _); [|now split].
  destruct (nonempty _); [|now split].
  split; cbn [query params paramCount conditions].
  - rewrite map_app, list_sum_app, length_app. cbn [List.map list_sum].
    rewrite !occurrences_app, !dollars_dollar. cbn. lia.
  - rewrite length_app. cbn. lia.
Qed.

(** X15.  In the query that [detectDuplicates] sends, every placeholder
    has its parameter: the text has as many [$] as there are parameters,
    at most eight, and the counter of placeholders is one ahead of them. *)
Theorem candidateQuery_placeholders (contact : contactParser.Contact)
  (excludeId : option nat) :
  dollars (query (candidateQuery contact excludeId))
  = List.length (params (candidateQuery contact excludeId))
  /\ paramCount (candidateQuery contact excludeId)
     = S (List.length (params (candidateQuery contact excludeId)))
  /\ List.length (params (candidateQuery contact excludeId)) <= 8.
Proof.
  unfold candidateQuery.
  set (b0 := mkBuilder selectCandidates [] 1 []).
  assert (C0 : collecting b0) by (split; reflexivity).
  assert (L0 : paramCount b0 <= 1) by (cbn; lia).
  set (b1 := addExclusion excludeId b0).
  assert (C1 : collecting b1) by now apply addExclusion_collecting.
  assert (L1 : paramCount b1 <= 2).
  { subst b1. unfold addExclusion. destruct excludeId as [[|n]|]; cbn; lia. }
  set (b2 := addPhone contact b1).
  assert (C2 : collecting b2) by now apply addPhone_collecting.
  assert (L2 : paramCount b2 <= 5).
  { subst b2. unfold addPhone. destruct (truthy _); cbn [paramCount]; lia. }
  set (b3 := addEmail contact b2).
  assert (C3 : collecting b3) by now apply addEmail_collecting.
  assert (L3 : paramCount b3 <= 6).
  { subst b3. unfold addEmail. destruct (truthy _); cbn [paramCount]; lia. }
  set (b4 := addName contact b3).
  assert (C4 : collecting b4) by now apply addName_collecting.
  assert (L4 : paramCount b4 <= 9).
  { subst b4. unfold addName. destruct (_ || _); [|lia].
    destruct (nonempty _); cbn [paramCount]; lia. }
  destruct C4 as [C N]. clearbody b4. clear - C N L4.
  unfold addOrder, addConditions.
  destruct (conditions b4) as [|c cs] eqn:E.
  - cbn [List.length Nat.ltb Nat.leb query params paramCount].
    rewrite occurrences_app. cbn in C |- *. repeat split; lia.
  - cbn [List.length Nat.ltb Nat.leb query params paramCount].
    rewrite !occurrences_app, dollars_join. cbn in C |- *.
    repeat split; lia.
Qed.

End Query.

(** ** Further properties: what a merge throws, and what it writes *)

Section MergeErrors.
Import Js duplicateDetector.

(** X16.  When the store has no contact with the id of the primary,
    [mergeContacts] throws "Primary contact not found" after that one
    query: nothing is updated and nothing is deleted. *)
Theorem mergeContacts_primary_not_found (DB : Type)
  (executeQuery : string -> list param -> M DB QueryResult)
  (primaryContactId : nat) (duplicateContactIds : list nat) (db0 db1 : DB) :
  executeQuery selectPrimary [int primaryContactId] db0
  = (inr (mkQueryResult []), db1) ->
  mergeContacts DB executeQuery primaryContactId duplicateContactIds db0
  = (inl (Error "Primary contact not found"), db1).
Proof.
  intros H. unfold mergeContacts, try_catch, bind, throw.
  rewrite H. reflexivity.
Qed.

(** X17.  An error of the store reaches the caller of [mergeContacts] as
    it was thrown, at whichever of the four queries it happens, and the
    store stays as that query left it.  In particular, when the deletion
    fails the update of the primary has already been made: the merge is
    not undone. *)
Theorem mergeContacts_rethrows (DB : Type)
  (executeQuery : string -> list param -> M DB QueryResult)
  (primaryContactId : nat) (duplicateContactIds : list nat)
  (db0 db1 db2 db3 db4 : DB) (primaryContact : Row) (others found : list Row)
  (updated : QueryResult) (error : exn) :
  (executeQuery selectPrimary [int primaryContactId] db0 = (inl error, db1) ->
   mergeContacts DB executeQuery primaryContactId duplicateContactIds db0
   = (inl error, db1))
  /\ (executeQuery selectPrimary [int primaryContactId] db0
      = (inr (mkQueryResult (primaryContact :: others)), db1) ->
      (executeQuery (selectDuplicates (joinIds duplicateContactIds)) [] db1
       = (inl error, db2) ->
       mergeContacts DB executeQuery primaryContactId duplicateContactIds db0
       = (inl error, db2))
      /\ (executeQuery (selectDuplicates (joinIds duplicateContactIds)) [] db1
          = (inr (mkQueryResult found), db2) ->
          (executeQuery updatePrimary
             (updateParams (fold_left mergeOne found primaryContact)
                primaryContactId) db2
           = (inl error, db3) ->
           mergeContacts DB executeQuery primaryContactId
             duplicateContactIds db0
           = (inl error, db3))
          /\ (executeQuery updatePrimary
                (updateParams (fold_left mergeOne found primaryContact)
                   primaryContactId) db2
              = (inr updated, db3) ->
              executeQuery (deleteDuplicates (joinIds duplicateContactIds))
                [] db3
              = (inl error, db4) ->
              mergeContacts DB executeQuery primaryContactId
                duplicateContactIds db0
              = (inl error, db4)))).
Proof.
  unfold mergeContacts, try_catch, bind, throw, ret.
  split; [intros H1; now rewrite H1|].
  intros H1. rewrite H1. cbv beta iota zeta delta [rows].
  split; [intros H2; now rewrite H2|].
  intros H2. rewrite H2. cbv beta iota zeta delta [rows].
  split; [intros H3; now rewrite H3|].
  intros H3 H4. now rewrite H3, H4.
Qed.

Lemma mergeContacts_returns (DB : Type)
  (executeQuery : string -> list param -> M DB QueryResult)
  (primaryContactId : nat) (duplicateContactIds : list nat)
  (db0 db1 db2 db3 db4 : DB) (primaryContact : Row) (others found : list Row)
  (updated deleted : QueryResult) :
  executeQuery selectPrimary [int primaryContactId] db0
  = (inr (mkQueryResult (primaryContact :: others)), db1) ->
  executeQuery (selectDuplicates (joinIds duplicateContactIds)) [] db1
  = (inr (mkQueryResult found), db2) ->
  executeQuery updatePrimary
    (updateParams (fold_left mergeOne found primaryContact) primaryContactId)
    db2
  = (inr updated, db3) ->
  executeQuery (deleteDuplicates (joinIds duplicateContactIds)) [] db3
  = (inr deleted, db4) ->
  mergeContacts DB executeQuery primaryContactId duplicateContactIds db0
  = (inr {| success := true;
            mergedContact := fold_left mergeOne found primaryContact;
            deletedCount := List.length duplicateContactIds |}, db4).
Proof.
  intros H1 H2 H3 H4. unfold mergeContacts, try_catch, bind, ret.
  rewrite H1. cbv beta iota zeta delta [rows throw].
  rewrite H2. cbv beta iota zeta delta [rows].
  now rewrite H3, H4.
Qed.

Lemma join_cons (sep p : string) (rest : list string) :
  rest <> [] -> join sep (p :: rest) = p +++ sep +++ join sep rest.
Proof. destruct rest; [congruence|reflexivity]. Qed.

Lemma append_assoc (a b c : string) : (a +++ b) +++ c = a +++ b +++ c.
Proof. induction a as [|x a IH]; [reflexivity|]. cbn. now rewrite IH. Qed.

Lemma fold_left_mergeNotes (found : list Row) :
  forall merged,
    fold_left mergeNotes found merged = Props.mergedNotes merged found.
Proof.
  induction found as [|d found IH]; intros merged; [reflexivity|].
  cbn [fold_left]. rewrite IH. clear IH.
  unfold Props.mergedNotes, mergeNotes. cbn [filter].
  destruct (truthy (notes d)) eqn:D; [|reflexivity].
  cbn [List.map].
  set (paragraphs :=
         List.map Props.noteOf (filter (fun d => truthy (notes d)) found)).
  fold (Props.noteOf d).
  destruct (truthy merged) eqn:T.
  - change (or_empty merged +++ nl +++ nl +++ ?x)
      with (or_empty merged +++ (nl +++ nl) +++ x).
    destruct paragraphs as [|p ps]; [reflexivity|].
    rewrite truthy_str.
    assert (N : nonempty (or_empty merged +++ (nl +++ nl)
                          +++ Props.noteOf d) = true).
    { destruct (or_empty merged); reflexivity. }
    rewrite N. cbn [or_empty]. f_equal.
    rewrite (join_cons _ _ (p :: ps)) by discriminate.
    rewrite (join_cons _ (or_empty merged) (Props.noteOf d :: p :: ps))
      by discriminate.
    rewrite (join_cons _ (Props.noteOf d) (p :: ps)) by discriminate.
    now rewrite !append_assoc.
  - destruct paragraphs as [|p ps]; [reflexivity|].
    reflexivity.
Qed.

Lemma fold_left_mergeOne_notes (found : list Row) :
  forall merged,
    notes (fold_left mergeOne found merged)
    = fold_left mergeNotes found (notes merged).
Proof.
  induction found as [|d found IH]; intros merged; [reflexivity|].
  cbn [fold_left]. now rewrite IH.
Qed.

Lemma fold_left_mergeOne_kept {A : Type} (column : Row -> A) :
  (forall merged duplicate,
      column (mergeOne merged duplicate) = column merged) ->
  forall found merged, column (fold_left mergeOne found merged) = column merged.
Proof.
  intros K found. induction found as [|d found IH]; intros merged;
    [reflexivity|].
  cbn [fold_left]. now rewrite IH, K.
Qed.

(** X18.  A merge that succeeds keeps the notes of the primary and puts
    after them, with an empty line in between, a paragraph "Merged from
    contact ID n: ..." for each duplicate that has notes, in the order in
    which the store returned the duplicates.  The id, the source, the
    status and the dates of the primary are returned as they were. *)
Theorem mergeContacts_notes (DB : Type)
  (executeQuery : string -> list param -> M DB QueryResult)
  (primaryContactId : nat) (duplicateContactIds : list nat)
  (db0 db1 db2 db3 db4 : DB) (primaryContact : Row) (others found : list Row)
  (updated deleted : QueryResult) :
  executeQuery selectPrimary [int primaryContactId] db0
  = (inr (mkQueryResult (primaryContact :: others)), db1) ->
  executeQuery (selectDuplicates (joinIds duplicateContactIds)) [] db1
  = (inr (mkQueryResult found), db2) ->
  executeQuery updatePrimary
    (updateParams (fold_left mergeOne found primaryContact) primaryContactId)
    db2
  = (inr updated, db3) ->
  executeQuery (deleteDuplicates (joinIds duplicateContactIds)) [] db3
  = (inr deleted, db4) ->
  exists merged,
    mergeContacts DB executeQuery primaryContactId duplicateContactIds db0
    = (inr {| success := true; mergedContact := merged;
              deletedCount := List.length duplicateContactIds |}, db4)
    /\ notes merged = Props.mergedNotes (notes primaryContact) found
    /\ id merged = id primaryContact
    /\ source merged = source primaryContact
    /\ status merged = status primaryContact
    /\ created_by merged = created_by primaryContact
    /\ created_at merged = created_at primaryContact
    /\ updated_at merged = updated_at primaryContact.
Proof.
  intros H1 H2 H3 H4.
  exists (fold_left mergeOne found primaryContact).
  split; [eapply mergeContacts_returns; eassumption|].
  split; [now rewrite fold_left_mergeOne_notes, fold_left_mergeNotes|].
  repeat split; now apply fold_left_mergeOne_kept.
Qed.

End MergeErrors.

Section MergeRuns.
Import Js duplicateDetector Stores MoreStores.

(** X16 on the store in memory, which has no contact 9. *)
Lemma mergeContacts_primary_not_found_witness :
  mergeContacts Table inMemory 9 [2] book
  = (inl (Error "Primary contact not found"), book).
Proof.
  apply (mergeContacts_primary_not_found Table inMemory 9 [2] book book).
  reflexivity.
Defined.

(** X17 on the store that refuses to delete: the error comes back, and
    the table holds the merged primary beside the two duplicates. *)
Lemma mergeContacts_rethrows_witness :
  mergeContacts Table keeping 1 [3; 2] book
  = (inl (Error "SQLITE_CONSTRAINT: FOREIGN KEY constraint failed"),
     afterUpdate).
Proof.
  apply (mergeContacts_rethrows Table keeping 1 [3; 2]
           book book book afterUpdate afterUpdate ann [] [annie; bob]
           (mkQueryResult [])
           (Error "SQLITE_CONSTRAINT: FOREIGN KEY constraint failed"));
    reflexivity.
Defined.

(** X18 on a table of three contacts, two of them with notes. *)
Lemma mergeContacts_notes_witness :
  exists merged table,
    mergeContacts Table inMemory 1 [2; 3] notedBook
    = (inr {| success := true; mergedContact := merged; deletedCount := 2 |},
       table)
    /\ notes merged
       = str ("VIP" +++ nl +++ nl
              +++ "Merged from contact ID 3: met at the fair").
Proof.
  edestruct (mergeContacts_notes Table inMemory 1 [2; 3] notedBook)
    as (merged & E & N & _); [reflexivity..|].
  exists merged. eexists. split; [exact E|].
  rewrite N. reflexivity.
Defined.

End MergeRuns.

(** ** Further properties: the raw import *)

Section RawImport.
Import Js duplicateDetector contactsRoutes.

Variable DB : Type.
Variable executeQuery : string -> list param -> M DB QueryResult.
Variable executeSingleQuery : string -> list param -> M DB SingleResult.

(** [detectDuplicates] always returns, and says that there are duplicates
    exactly when it lists some. *)
Lemma detectDuplicates_total (candidate : contactParser.Contact)
  (excludeId : option nat) (db : DB) :
  exists found db',
    detectDuplicates DB executeQuery candidate excludeId db
    = (inr {| hasDuplicates := 0 <? List.length found;
              duplicates := found;
              totalDuplicates := List.length found |}, db').
Proof.
  unfold detectDuplicates, bind, try_catch, ret.
  destruct (executeQuery _ _ db) as [[error|answer] db'].
  - now exists [], db'.
  - now eexists _, db'.
Qed.

Lemma checkDuplicates_counts (parsed : list contactParser.Contact) :
  forall reports valid db checked db',
    checkDuplicates DB executeQuery parsed reports valid db
    = (inr checked, db') ->
    Forall (fun r => reported r <> []) reports ->
    List.length (fst checked) + List.length (snd checked)
    = List.length reports + List.length valid + List.length parsed
    /\ Forall (fun r => reported r <> []) (fst checked).
Proof.
  induction parsed as [|c parsed IH]; intros reports valid db checked db' H F.
  - cbn in H. injection H as <- _. cbn. split; [lia|exact F].
  - cbn [checkDuplicates] in H. unfold bind in H.
    destruct (detectDuplicates_total c None db) as (found & db1 & E).
    rewrite E in H. cbn [hasDuplicates duplicates] in H.
    destruct (0 <? List.length found) eqn:N.
    + apply IH in H as [L G].
      * rewrite length_app in L. cbn [List.length] in *. split; [lia|exact G].
      * apply Forall_app. split; [exact F|]. constructor; [|constructor].
        cbn. destruct found; [discriminate|discriminate].
    + apply IH in H as [L G]; [|exact F].
      rewrite length_app in L. cbn [List.length] in *. split; [lia|exact G].
Qed.

Lemma insertContacts_counts (valid : list contactParser.Contact)
  (userId : nat) :
  forall done db rows db',
    insertContacts DB executeQuery executeSingleQuery valid userId done db
    = (inr rows, db') ->
    List.length rows = List.length done + List.length valid.
Proof.
  induction valid as [|c valid IH]; intros done db rows db' H.
  - cbn in H. injection H as <- _. cbn. lia.
  - cbn [insertContacts] in H. unfold bind in H.
    destruct (executeSingleQuery _ _ db) as [[e|r] db1]; [discriminate|].
    destruct (executeQuery _ _ db1) as [[e|q] db2]; [discriminate|].
    apply IH in H. rewrite length_app in H. cbn [List.length] in *. lia.
Qed.

(** X19.  When the raw import answers 200, its summary adds up: the
    total is the number of parsed contacts and at least one, every parsed
    contact is either imported or reported as a duplicate, and [failed]
    is 0.  The lists of the answer have the lengths that the summary
    gives, and every report lists at least one duplicate. *)
Theorem importRaw_summary (rawData : value) (userId : nat) (db db' : DB)
  (body : ImportBody) :
  importRaw DB executeQuery executeSingleQuery rawData userId db
  = (status200 body, db') ->
  total (summary body)
  = List.length (contactParser.parseRawContactData (or_empty rawData))
  /\ 1 <= total (summary body)
  /\ imported (summary body) = List.length (importedContacts body)
  /\ duplicated (summary body) = List.length (duplicateResults body)
  /\ imported (summary body) + duplicated (summary body)
     = total (summary body)
  /\ failed (summary body) = 0%Z
  /\ Forall (fun r => reported r <> []) (duplicateResults body).
Proof.
  unfold importRaw, importRawBody, bind, ret.
  destruct (negb (truthy rawData)); [discriminate|].
  set (parsed := contactParser.parseRawContactData (or_empty rawData)).
  destruct (List.length parsed =? 0) eqn:Z; [discriminate|].
  apply Nat.eqb_neq in Z.
  destruct (checkDuplicates DB executeQuery parsed [] [] db)
    as [[e|checked] db1] eqn:C; [discriminate|].
  destruct (insertContacts DB executeQuery executeSingleQuery
              (snd checked) userId [] db1) as [[e|rows] db2] eqn:I;
    [discriminate|].
  intros H. injection H as <- _.
  cbn [summary total imported duplicated failed importedContacts
       duplicateResults].
  apply checkDuplicates_counts in C as [L G]; [|constructor].
  apply insertContacts_counts in I. cbn [List.length] in *.
  repeat split; try lia. exact G.
Qed.

(** X20.  Without raw data, and with raw data of which no line gives a
    contact, the raw import answers 400 and does not call the store. *)
Theorem importRaw_nothing_to_import (rawData : value) (userId : nat)
  (db : DB) :
  (truthy rawData = false ->
   importRaw DB executeQuery executeSingleQuery rawData userId db
   = (status400 "Raw data is required", db))
  /\ (truthy rawData = true ->
      contactParser.parseRawContactData (or_empty rawData) = [] ->
      importRaw DB executeQuery executeSingleQuery rawData userId db
      = (status400 "No valid contacts found in the raw data", db)).
Proof.
  unfold importRaw, importRawBody, bind, ret. split.
  - intros T. now rewrite T.
  - intros T P. now rewrite T, P.
Qed.

Lemma checkDuplicates_unchecked (parsed : list contactParser.Contact) :
  (forall c db, In c parsed -> exists error,
      executeQuery (query (candidateQuery c None))
        (params (candidateQuery c None)) db = (inl error, db)) ->
  forall reports valid db,
    checkDuplicates DB executeQuery parsed reports valid db
    = (inr (reports, valid ++ parsed), db).
Proof.
  induction parsed as [|c parsed IH]; intros R reports valid db.
  - cbn. now rewrite app_nil_r.
  - cbn [checkDuplicates]. unfold bind at 1.
    unfold detectDuplicates, bind, try_catch, ret.
    destruct (R c db (or_introl eq_refl)) as (error & E). rewrite E.
    cbn [hasDuplicates List.length Nat.ltb Nat.leb].
    rewrite IH by (intros c' db0 I; apply R; now right).
    now rewrite <- app_assoc.
Qed.

Lemma insertContacts_succeeds (valid : list contactParser.Contact)
  (userId : nat) :
  (forall ps db, exists r db',
      executeSingleQuery insertContact ps db = (inr r, db')) ->
  (forall ps db, exists q db',
      executeQuery selectById ps db = (inr q, db')) ->
  forall done db, exists rows db',
    insertContacts DB executeQuery executeSingleQuery valid userId done db
    = (inr rows, db').
Proof.
  intros I S. induction valid as [|c valid IH]; intros done db.
  - now exists done, db.
  - cbn [insertContacts]. unfold bind.
    destruct (I (insertParams c userId) db) as (r & db1 & ->).
    destruct (S [int (insertId r)] db1) as (q & db2 & ->).
    apply IH.
Qed.

(** X21.  When the store rejects the queries of the duplicate check and
    accepts the insertions, the raw import answers 200 with no duplicate
    reported and every parsed contact imported: the check has failed
    without a trace, and nothing was compared. *)
Theorem importRaw_unchecked (rawData : value) (userId : nat) (db : DB) :
  truthy rawData = true ->
  contactParser.parseRawContactData (or_empty rawData) <> [] ->
  (forall c db, In c (contactParser.parseRawContactData (or_empty rawData)) ->
     exists error,
       executeQuery (query (candidateQuery c None))
         (params (candidateQuery c None)) db = (inl error, db)) ->
  (forall ps db, exists r db',
      executeSingleQuery insertContact ps db = (inr r, db')) ->
  (forall ps db, exists q db',
      executeQuery selectById ps db = (inr q, db')) ->
  exists body db',
    importRaw DB executeQuery executeSingleQuery rawData userId db
    = (status200 body, db')
    /\ duplicateResults body = []
    /\ imported (summary body) = total (summary body).
Proof.
  intros T P R I S. unfold importRaw, importRawBody, bind, ret.
  rewrite T. cbn [negb].
  set (parsed := contactParser.parseRawContactData (or_empty rawData)) in *.
  destruct (List.length parsed =? 0) eqn:Z.
  { apply Nat.eqb_eq in Z. destruct parsed; [congruence|discriminate]. }
  rewrite (checkDuplicates_unchecked parsed R [] [] db). cbn [fst snd app].
  destruct (insertContacts_succeeds parsed userId I S [] db)
    as (rows & db' & E).
  rewrite E. eexists _, db'. split; [reflexivity|].
  cbn [duplicateResults summary imported total]. split; [reflexivity|].
  apply insertContacts_counts in E. cbn [List.length] in E. lia.
Qed.

End RawImport.

Section RawImportRuns.
Import Js duplicateDetector contactsRoutes Stores MoreStores.

(** X19 on the store in memory: of two lines, one contact is in the book
    and one is new. *)
Lemma importRaw_summary_witness :
  exists body table,
    importRaw Table reading running (str twoLines) 7 book
    = (status200 body, table)
    /\ total (summary body) = 2 /\ imported (summary body) = 1
    /\ duplicated (summary body) = 1 /\ failed (summary body) = 0%Z.
Proof.
  eexists. eexists. split; [vm_compute; reflexivity|].
  match goal with
  | |- total (summary ?b) = _ /\ _ =>
      destruct (importRaw_summary Table reading running (str twoLines) 7
                  book _ b ltac:(vm_compute; reflexivity))
        as (_ & _ & _ & _ & _ & F & _)
  end.
  split; [reflexivity|]. split; [reflexivity|]. split; [reflexivity|exact F].
Defined.

(** X20 on a text without a contact. *)
Lemma importRaw_nothing_to_import_witness :
  importRaw Table reading running (str "nothing to see here") 7 book
  = (status400 "No valid contacts found in the raw data", book).
Proof.
  apply (proj2 (importRaw_nothing_to_import Table reading running
                  (str "nothing to see here") 7 book)); reflexivity.
Defined.

(** X21 on the store that cannot be searched. *)
Lemma importRaw_unchecked_witness :
  exists body,
    importRaw unit blind accepting (str twoLines) 7 tt = (status200 body, tt)
    /\ duplicateResults body = []
    /\ imported (summary body) = total (summary body).
Proof.
  destruct (importRaw_unchecked unit blind accepting (str twoLines) 7 tt)
    as (body & [] & E & D & N).
  - reflexivity.
  - vm_compute. discriminate.
  - intros c [] I. eexists.
    vm_compute in I. destruct I as [<-|[<-|[]]]; vm_compute; reflexivity.
  - intros ps []. now eexists _, tt.
  - intros ps []. now eexists _, tt.
  - exists body. now repeat split.
Defined.

End RawImportRuns.
